(** * MedVault: consent registry and field-level projection

    A shallow embedding of the backend's consent subsystem:

    - [Json]: the JSON-like values medical records are made of, with the
      property reads and writes of the host language that the service
      code performs on them;
    - [MidnightService]: [getNestedProperty], [setNestedProperty] and the
      filtering loop of [getApprovedFields]
      (backend/src/services/midnight_service.ts);
    - [Helpers]: the field catalog and its validator (utils/helpers);
    - [Db]: the SQLite tables as lists of rows in rowid order, and the
      model classes [PatientModel], [DoctorModel], [NotificationModel];
    - [SmartContractService]: backend/src/services/smart_contracts.ts;
    - [Routes]: the doctor and patient route handlers that make up the
      registry operations;
    - [DoctorRoutes], [NotificationRoutes]: the medical-data endpoint and
      the notification statistics;
    - [Security]: [validateMedicalRecord] (utils/security);
    - [Buffer]: base64 encoding, used by the mock wallet's [sign].

    Modelling conventions.
    - Records come out of [JSON.parse]; property access is modelled on
      own properties (object fields, array elements and [length], string
      characters and [length]).  Members inherited from the built-in
      prototypes are not represented: [Json.inherited_member] lists
      their names, and statements that range over arbitrary paths are
      made for paths that name none of them ([own_path]); the paths of
      the field catalog are such paths.
    - Numbers are carried as integers: the code never computes with them,
      it only tests them for truthiness and stores them.
    - A thrown exception is a [Throw] result.  The service classes are
      compiled as strict-mode code, so assigning a property on a primitive
      throws a [TypeError].
    - [setNestedProperty] mutates its destination in place; the embedding
      returns the updated destination.  [set_same] below shows that a
      write which reaches a value shared with the source record stores
      what is already there, so sharing is not observable.
    - [JSON.stringify]/[JSON.parse] of a list of field names is the
      identity and is elided: the [approved_fields] and
      [requested_fields] columns hold lists of strings. *)

From stdpp Require Import gmap strings list fin_maps.
From Stdlib Require Import ZArith NArith Ascii.

Set Warnings "-register-all".
Open Scope string_scope.
Open Scope list_scope.

(** ** Results of computations that may throw *)

Inductive exn : Type :=
  | TypeError
  | RangeError
  | OutsideModel             (* array expando properties, length coercions *)
  | Error (msg : string).    (* [throw new Error(msg)] *)

Inductive result (A : Type) : Type :=
  | Ok (a : A)
  | Throw (e : exn).
Arguments Ok {A} a.
Arguments Throw {A} e.

(** Sequencing, written [x ← m; k]: an exception skips the rest. *)
#[global] Instance result_bind : MBind result := λ A B k m,
  match m with
  | Ok a => k a
  | Throw e => Throw e
  end.

Module Json.

Inductive value : Type :=
  | VUndefined
  | VNull
  | VBool (b : bool)
  | VNum (n : Z)
  | VStr (s : string)
  | VArr (elems : list value)
  | VObj (fields : gmap string value).

Definition is_undefined (v : value) : bool :=
  match v with VUndefined => true | _ => false end.

(** ToBoolean. *)
Definition truthy (v : value) : bool :=
  match v with
  | VUndefined | VNull => false
  | VBool b => b
  | VNum n => negb (n =? 0)%Z
  | VStr s => negb (bool_decide (s = ""))
  | VArr _ | VObj _ => true
  end.

Definition digit (c : ascii) : option N :=
  let n := N_of_ascii c in
  if ((48 <=? n) && (n <=? 57))%N then Some (n - 48)%N else None.

Fixpoint digits (s : string) (acc : N) : option N :=
  match s with
  | EmptyString => Some acc
  | String c s' =>
      match digit c with
      | Some d => digits s' (10 * acc + d)%N
      | None => None
      end
  end.

(** A property key is an array index when it is the canonical decimal
    numeral of an integer below 2^32 - 1. *)
Definition array_index (key : string) : option N :=
  match key with
  | EmptyString => None
  | String c rest =>
      if bool_decide (c = "0"%char) && negb (bool_decide (rest = ""))
      then None
      else match digits key 0 with
           | Some i => if (i <? 4294967295)%N then Some i else None
           | None => None
           end
  end.

(** [receiver[key]] as an rvalue. *)
Definition read_prop (receiver : value) (key : string) : result value :=
  match receiver with
  | VUndefined | VNull => Throw TypeError
  | VBool _ | VNum _ => Ok VUndefined
  | VStr s =>
      match array_index key with
      | Some i =>
          match String.get (N.to_nat i) s with
          | Some c => Ok (VStr (String c EmptyString))
          | None => Ok VUndefined
          end
      | None =>
          if bool_decide (key = "length")
          then Ok (VNum (Z.of_nat (String.length s)))
          else Ok VUndefined
      end
  | VArr elems =>
      match array_index key with
      | Some i => Ok (default VUndefined (elems !! N.to_nat i))
      | None =>
          if bool_decide (key = "length")
          then Ok (VNum (Z.of_nat (length elems)))
          else Ok VUndefined
      end
  | VObj fields => Ok (default VUndefined (fields !! key))
  end.

(** Storing at an index: in range replaces, out of range grows the
    array, the skipped slots reading as [undefined]. *)
Definition array_store (elems : list value) (i : nat) (v : value) : list value :=
  if (i <? length elems)%nat
  then <[i := v]> elems
  else elems ++ replicate (i - length elems) VUndefined ++ [v].

Definition array_resize (n : nat) (elems : list value) : list value :=
  take n elems ++ replicate (n - length elems) VUndefined.

(** [target[key] = v] in strict mode; the result is the updated target. *)
Definition write_prop (target : value) (key : string) (v : value) : result value :=
  match target with
  | VUndefined | VNull => Throw TypeError
  | VBool _ | VNum _ | VStr _ => Throw TypeError
  | VArr elems =>
      match array_index key with
      | Some i => Ok (VArr (array_store elems (N.to_nat i) v))
      | None =>
          if bool_decide (key = "length")
          then match v with
               | VNum n =>
                   if ((0 <=? n) && (n <? 4294967296))%Z
                   then Ok (VArr (array_resize (Z.to_nat n) elems))
                   else Throw RangeError
               | _ => Throw OutsideModel
               end
          else Throw OutsideModel
      end
  | VObj fields => Ok (VObj (<[key := v]> fields))
  end.

(** [path.split('.')]: never empty, empty segments are kept. *)
Fixpoint split (sep : ascii) (s : string) : list string :=
  match s with
  | EmptyString => [EmptyString]
  | String c s' =>
      if bool_decide (c = sep)
      then EmptyString :: split sep s'
      else match split sep s' with
           | seg :: segs => String c seg :: segs
           | [] => [String c EmptyString]
           end
  end.

(** An object literal. *)
Definition object (props : list (string * value)) : value :=
  VObj (list_to_map props).

(** [segments.join('.')]. *)
Definition join (sep : string) (segments : list string) : string :=
  String.concat sep segments.

(** The string-named members that [Object.prototype], [Array.prototype],
    [String.prototype], [Number.prototype] and [Boolean.prototype] define
    (ECMAScript 2023 with its Annex B).  A read [receiver[key]] finds
    such a member when the receiver has no own property of that name, and
    a write of [__proto__] runs the inherited setter; [read_prop] and
    [write_prop] are exact for every other key. *)
Definition inherited_members : list string :=
  [ (* Object.prototype *)
    "constructor"; "__proto__"; "hasOwnProperty"; "isPrototypeOf";
    "propertyIsEnumerable"; "toLocaleString"; "toString"; "valueOf";
    "__defineGetter__"; "__defineSetter__"; "__lookupGetter__"; "__lookupSetter__";
    (* Array.prototype *)
    "at"; "concat"; "copyWithin"; "entries"; "every"; "fill"; "filter"; "find";
    "findIndex"; "findLast"; "findLastIndex"; "flat"; "flatMap"; "forEach";
    "includes"; "indexOf"; "join"; "keys"; "lastIndexOf"; "map"; "pop"; "push";
    "reduce"; "reduceRight"; "reverse"; "shift"; "slice"; "some"; "sort";
    "splice"; "toReversed"; "toSorted"; "toSpliced"; "unshift"; "values"; "with";
    (* String.prototype *)
    "anchor"; "big"; "blink"; "bold"; "charAt"; "charCodeAt"; "codePointAt";
    "endsWith"; "fixed"; "fontcolor"; "fontsize"; "isWellFormed"; "italics";
    "link"; "localeCompare"; "match"; "matchAll"; "normalize"; "padEnd";
    "padStart"; "repeat"; "replace"; "replaceAll"; "search"; "small"; "split";
    "startsWith"; "strike"; "sub"; "substr"; "substring"; "sup";
    "toLocaleLowerCase"; "toLocaleUpperCase"; "toLowerCase"; "toUpperCase";
    "toWellFormed"; "trim"; "trimEnd"; "trimLeft"; "trimRight"; "trimStart";
    (* Number.prototype *)
    "toExponential"; "toFixed"; "toPrecision" ].

Definition inherited_member (key : string) : bool :=
  bool_decide (key ∈ inherited_members).

End Json.

(** ** Byte buffers

    [Buffer.from(data).toString('base64')] on a string taken as the
    sequence of its bytes. *)

Module Buffer.

Definition alphabet : string :=
  "ABCDEFGHIJKLMNOPQRSTUVWXYZabcdefghijklmnopqrstuvwxyz0123456789+/".

Definition sextet (n : N) : ascii :=
  default "A"%char (String.get (N.to_nat n) alphabet).

Fixpoint encode (bytes : list N) : string :=
  match bytes with
  | [] => EmptyString
  | [a] =>
      String (sextet (a / 4)) (String (sextet ((a mod 4) * 16)) "==")
  | [a; b] =>
      String (sextet (a / 4))
        (String (sextet ((a mod 4) * 16 + b / 16))
           (String (sextet ((b mod 16) * 4)) "="))
  | a :: b :: c :: rest =>
      String (sextet (a / 4))
        (String (sextet ((a mod 4) * 16 + b / 16))
           (String (sextet ((b mod 16) * 4 + c / 64))
              (String (sextet (c mod 64)) (encode rest))))
  end%N.

Definition toBase64 (data : string) : string :=
  encode (map N_of_ascii (String.list_ascii_of_string data)).

End Buffer.

Module MidnightService.
Import Json.

(** [path.split('.').reduce((current, key) =>
      current && current[key] !== undefined ? current[key] : undefined, obj)] *)
Definition getNestedProperty (obj : value) (path : string) : result value :=
  fold_left
    (fun (acc : result value) (key : string) =>
       current ← acc;
       if truthy current then
         v ← read_prop current key;
         if negb (is_undefined v) then read_prop current key else Ok VUndefined
       else Ok VUndefined)
    (split "." path) (Ok obj).

(** The walk of [setNestedProperty]: [keys.reduce] descends from
    [current], creating an empty object wherever [current[key]] is
    falsy, and the last target receives [value] under [lastKey].  The
    updated [current] is returned; re-attaching the updated child is
    what in-place mutation gives for free. *)
Fixpoint assign (current : value) (keys : list string) (lastKey : string)
    (v : value) : result value :=
  match keys with
  | [] => write_prop current lastKey v
  | key :: keys' =>
      child ← read_prop current key;
      if negb (truthy child) then
        current1 ← write_prop current key (VObj ∅);
        child1 ← read_prop current1 key;
        child' ← assign child1 keys' lastKey v;
        write_prop current1 key child'
      else
        child' ← assign child keys' lastKey v;
        write_prop current key child'
  end.

Definition setNestedProperty (obj : value) (path : string) (v : value)
    : result value :=
  let keys := split "." path in
  let lastKey := List.last keys EmptyString in
  let keys := List.removelast keys in
  assign obj keys lastKey v.

(** The filtering loop of [getApprovedFields], from the retrieved
    [fullRecord] on.  An exception in the loop surfaces as
    [Error "Failed to get approved fields"]. *)
Definition filterRecord (fullRecord : value) (approvedFields : list string)
    : result value :=
  fold_left
    (fun (acc : result value) (fieldPath : string) =>
       filteredRecord ← acc;
       v ← getNestedProperty fullRecord fieldPath;
       if negb (is_undefined v)
       then setNestedProperty filteredRecord fieldPath v
       else Ok filteredRecord)
    approvedFields (Ok (VObj ∅)).

Definition getApprovedFields (fullRecord : value) (approvedFields : list string)
    : result value :=
  match filterRecord fullRecord approvedFields with
  | Ok filteredRecord => Ok filteredRecord
  | Throw _ => Throw (Error "Failed to get approved fields")
  end.

(** [String.prototype.startsWith] and [endsWith]. *)
Definition startsWith (s prefix : string) : bool := String.prefix prefix s.

Definition endsWith (s suffix : string) : bool :=
  (String.length suffix <=? String.length s)%nat
  && bool_decide
       (String.substring (String.length s - String.length suffix)
          (String.length suffix) s = suffix).

(** [wallet.sign] of the mock SDK: the same for every wallet. *)
Definition sign (data : string) : string := "sig_" +:+ Buffer.toBase64 data.

(** [verifyWalletSignature]; connecting the mock wallet cannot fail, so
    the [catch] is never entered. *)
Definition verifyWalletSignature (walletAddress message signature : string) : bool :=
  if startsWith signature "demo_signature_" && endsWith signature walletAddress
  then true
  else
    let expectedSignature := sign message in
    bool_decide (signature = expectedSignature).

End MidnightService.

Module Helpers.

Definition getAvailableMedicalFields : list string :=
  [ "patientInfo.name"; "patientInfo.dateOfBirth"; "patientInfo.gender";
    "patientInfo.bloodType"; "patientInfo.allergies";
    "medicalHistory.conditions"; "medicalHistory.medications";
    "medicalHistory.surgeries"; "medicalHistory.familyHistory";
    "vitals.bloodPressure"; "vitals.heartRate"; "vitals.temperature";
    "vitals.weight"; "vitals.height";
    "labResults.bloodWork"; "labResults.imaging"; "labResults.pathology";
    "currentTreatment.medications"; "currentTreatment.therapies";
    "currentTreatment.followUpInstructions" ].

Definition includes (l : list string) (x : string) : bool :=
  bool_decide (x ∈ l).

(** Returns [(valid, invalid)]. *)
Definition validateMedicalFields (fields : list string) : list string * list string :=
  fold_left
    (fun (acc : list string * list string) (field : string) =>
       let '(valid, invalid) := acc in
       if includes getAvailableMedicalFields field
       then (valid ++ [field], invalid)
       else (valid, invalid ++ [field]))
    fields ([], []).

(** [validateRequiredFields(req.body, ['patient_id', 'requested_fields'])]
    on a body whose [patient_id] is a number and whose
    [requested_fields] is an array: an array is never falsy, the number
    0 is. *)
Definition validateRequiredFields (patient_id : nat) (requested_fields : list string)
    : list string :=
  if (patient_id =? 0)%nat then ["patient_id"] else [].

End Helpers.

(** ** The database and the model classes

    A table is the list of its rows in rowid order; [database.get] returns
    the first row a query selects.  Timestamps are not represented. *)

Module Db.

Inductive UserType : Type := patient | doctor.

(** The claims of the bearer token, [req.user]. *)
Record User : Type := {
  id : nat;
  wallet_address : string;
  type : UserType
}.

Record Patient : Type := {
  patient_id : nat;
  pseudonym : string;
  patient_wallet_address : string;
  medical_record_cid : option string
}.

Record Doctor : Type := {
  doctor_id : nat;
  name : string;
  speciality : string;
  doctor_wallet_address : string
}.

Inductive NotificationStatus : Type := pending | approved | denied.

Record Notification : Type := {
  notification_id : nat;
  n_doctor_id : nat;
  n_patient_id : nat;
  requested_fields : list string;
  n_status : NotificationStatus
}.

Inductive ContractStatus : Type := sc_pending | active | revoked.

Record SmartContract : Type := {
  contract_id : nat;
  patient_wallet : string;
  doctor_wallet : string;
  contract_address : option string;
  approved_fields : list string;
  status : ContractStatus
}.

(** The in-memory [MockSmartContract] objects. *)
Record MockSmartContract : Type := {
  address : string;
  patientWallet : string;
  doctorWallet : string;
  approvedFields : list string;
  isActive : bool
}.

Record State : Type := {
  patients : list Patient;
  doctors : list Doctor;
  notifications : list Notification;
  notifications_seq : nat;
  smart_contracts : list SmartContract;
  smart_contracts_seq : nat;
  contracts : gmap string MockSmartContract
}.

#[global] Instance UserType_eq_dec : EqDecision UserType.
Proof. solve_decision. Defined.
#[global] Instance NotificationStatus_eq_dec : EqDecision NotificationStatus.
Proof. solve_decision. Defined.
#[global] Instance ContractStatus_eq_dec : EqDecision ContractStatus.
Proof. solve_decision. Defined.

Definition set_notifications (st : State) (rows : list Notification) (seq : nat) : State :=
  {| patients := patients st; doctors := doctors st;
     notifications := rows; notifications_seq := seq;
     smart_contracts := smart_contracts st;
     smart_contracts_seq := smart_contracts_seq st;
     contracts := contracts st |}.

Definition set_smart_contracts (st : State) (rows : list SmartContract) (seq : nat) : State :=
  {| patients := patients st; doctors := doctors st;
     notifications := notifications st; notifications_seq := notifications_seq st;
     smart_contracts := rows; smart_contracts_seq := seq;
     contracts := contracts st |}.

Definition set_contracts (st : State) (m : gmap string MockSmartContract) : State :=
  {| patients := patients st; doctors := doctors st;
     notifications := notifications st; notifications_seq := notifications_seq st;
     smart_contracts := smart_contracts st;
     smart_contracts_seq := smart_contracts_seq st;
     contracts := m |}.

(** [INTEGER PRIMARY KEY AUTOINCREMENT]: one more than the largest rowid
    the table holds or has ever held. *)
Definition next_rowid (seq : nat) (ids : list nat) : nat :=
  S (Nat.max seq (list_max ids)).

(** A column value that is [NULL] or the empty string is falsy. *)
Definition present (s : option string) : bool :=
  match s with
  | Some s => negb (bool_decide (s = ""))
  | None => false
  end.

Module PatientModel.
Definition findById (st : State) (i : nat) : option Patient :=
  List.find (fun p => (patient_id p =? i)%nat) (patients st).
End PatientModel.

Module DoctorModel.
Definition findById (st : State) (i : nat) : option Doctor :=
  List.find (fun d => (doctor_id d =? i)%nat) (doctors st).
End DoctorModel.

Module NotificationModel.

Definition findById (st : State) (i : nat) : option Notification :=
  List.find (fun n => (notification_id n =? i)%nat) (notifications st).

Definition create (st : State) (doctor_id patient_id : nat)
    (requested_fields : list string) (status : NotificationStatus)
    : result Notification * State :=
  let lastID := next_rowid (notifications_seq st)
                  (map notification_id (notifications st)) in
  let row := {| notification_id := lastID; n_doctor_id := doctor_id;
                n_patient_id := patient_id;
                requested_fields := requested_fields;
                n_status := status |} in
  let st' := set_notifications st (notifications st ++ [row]) lastID in
  match findById st' lastID with
  | Some newNotification => (Ok newNotification, st')
  | None => (Throw (Error "Failed to create notification"), st')
  end.

Definition updateStatus (st : State) (i : nat) (status : NotificationStatus)
    : option Notification * State :=
  let rows :=
    map (fun n =>
           if (notification_id n =? i)%nat
           then {| notification_id := notification_id n;
                   n_doctor_id := n_doctor_id n;
                   n_patient_id := n_patient_id n;
                   requested_fields := requested_fields n;
                   n_status := status |}
           else n)
        (notifications st) in
  let st' := set_notifications st rows (notifications_seq st) in
  (findById st' i, st').

Definition findPendingByDoctorAndPatient (st : State) (doctorId patientId : nat)
    : option Notification :=
  List.find
    (fun n => (n_doctor_id n =? doctorId)%nat && (n_patient_id n =? patientId)%nat
              && bool_decide (n_status n = pending))
    (notifications st).

Definition deleteById (st : State) (i : nat) : bool * State :=
  let rows := List.filter (fun n => negb (notification_id n =? i)%nat) (notifications st) in
  ((List.length rows <? List.length (notifications st))%nat,
   set_notifications st rows (notifications_seq st)).

End NotificationModel.

End Db.

Module SmartContractService.
Import Db.

(** [MockSmartContract.checkAccess]. *)
Definition checkAccess (c : MockSmartContract) (doctorWallet field : string) : bool :=
  isActive c && bool_decide (Db.doctorWallet c = doctorWallet)
  && Helpers.includes (approvedFields c) field.

Definition findById (st : State) (i : nat) : option SmartContract :=
  List.find (fun c => (contract_id c =? i)%nat) (smart_contracts st).

(** [WHERE patient_wallet = ? AND doctor_wallet = ? AND status = 'active'] *)
Definition selects_active (patientWallet doctorWallet : string) (c : SmartContract) : bool :=
  bool_decide (patient_wallet c = patientWallet)
  && bool_decide (doctor_wallet c = doctorWallet)
  && bool_decide (status c = active).

Definition findByWallets (st : State) (patientWallet doctorWallet : string)
    : option SmartContract :=
  List.find (selects_active patientWallet doctorWallet) (smart_contracts st).

(** The random part of the contract address, [uuidv4()], is an input. *)
Definition createContract (st : State) (uuid : string)
    (patientWallet doctorWallet : string) (approvedFields : list string)
    : result SmartContract * State :=
  let contractAddress := "contract_" +:+ uuid in
  let contract := {| address := contractAddress; patientWallet := patientWallet;
                     doctorWallet := doctorWallet;
                     approvedFields := approvedFields;
                     isActive := true |} in
  let st1 := set_contracts st (<[contractAddress := contract]> (contracts st)) in
  let lastID := next_rowid (smart_contracts_seq st1)
                  (map contract_id (smart_contracts st1)) in
  let row := {| contract_id := lastID; patient_wallet := patientWallet;
                doctor_wallet := doctorWallet;
                contract_address := Some contractAddress;
                approved_fields := approvedFields; status := active |} in
  let st2 := set_smart_contracts st1 (smart_contracts st1 ++ [row]) lastID in
  match findById st2 lastID with
  | Some newContract => (Ok newContract, st2)
  | None => (Throw (Error "Failed to create smart contract"), st2)
  end.

Definition updateApprovedFields (st : State) (contractId : nat)
    (approvedFields : list string) : result (option SmartContract) * State :=
  match findById st contractId with
  | Some contractData =>
      if present (contract_address contractData) then
        let addr := default "" (contract_address contractData) in
        let st1 :=
          match contracts st !! addr with
          | Some contract =>
              set_contracts st
                (<[addr := {| address := address contract;
                              patientWallet := patientWallet contract;
                              doctorWallet := doctorWallet contract;
                              approvedFields := approvedFields;
                              isActive := isActive contract |}]> (contracts st))
          | None => st
          end in
        let rows :=
          map (fun c =>
                 if (contract_id c =? contractId)%nat
                 then {| contract_id := contract_id c;
                         patient_wallet := patient_wallet c;
                         doctor_wallet := doctor_wallet c;
                         contract_address := contract_address c;
                         approved_fields := approvedFields;
                         status := status c |}
                 else c)
              (smart_contracts st1) in
        let st2 := set_smart_contracts st1 rows (smart_contracts_seq st1) in
        (Ok (findById st2 contractId), st2)
      else (Throw (Error "Failed to update smart contract"), st)
  | None => (Throw (Error "Failed to update smart contract"), st)
  end.

Definition revokeContract (st : State) (contractId : nat) : result bool * State :=
  match findById st contractId with
  | Some contractData =>
      if present (contract_address contractData) then
        let addr := default "" (contract_address contractData) in
        let st1 :=
          match contracts st !! addr with
          | Some contract =>
              set_contracts st
                (<[addr := {| address := address contract;
                              patientWallet := patientWallet contract;
                              doctorWallet := doctorWallet contract;
                              approvedFields := [];
                              isActive := false |}]> (contracts st))
          | None => st
          end in
        let rows :=
          map (fun c =>
                 if (contract_id c =? contractId)%nat
                 then {| contract_id := contract_id c;
                         patient_wallet := patient_wallet c;
                         doctor_wallet := doctor_wallet c;
                         contract_address := contract_address c;
                         approved_fields := approved_fields c;
                         status := revoked |}
                 else c)
              (smart_contracts st1) in
        (Ok true, set_smart_contracts st1 rows (smart_contracts_seq st1))
      else (Throw (Error "Failed to revoke smart contract"), st)
  | None => (Throw (Error "Failed to revoke smart contract"), st)
  end.

(** [checkFieldAccess] on the outcome of its database query: the body
    of the [try] block, and [false] from the [catch]. *)
Definition checkFieldAccess_on (query : result (option SmartContract))
    (contracts : gmap string MockSmartContract) (doctorWallet field : string) : bool :=
  let attempt : result bool :=
    contractData ← query;
    match contractData with
    | None => Ok false
    | Some contractData =>
        if negb (present (contract_address contractData)) then Ok false
        else
          match contracts !! default "" (contract_address contractData) with
          | None => Ok (Helpers.includes (approved_fields contractData) field)
          | Some contract => Ok (checkAccess contract doctorWallet field)
          end
    end in
  match attempt with
  | Ok b => b
  | Throw _ => false
  end.

Definition checkFieldAccess (st : State) (patientWallet doctorWallet field : string) : bool :=
  checkFieldAccess_on (Ok (findByWallets st patientWallet doctorWallet))
    (contracts st) doctorWallet field.

Definition getApprovedFields (st : State) (patientWallet doctorWallet : string)
    : list string :=
  match findByWallets st patientWallet doctorWallet with
  | None => []
  | Some contractData => approved_fields contractData
  end.

End SmartContractService.

(** ** The route handlers: the registry operations

    A handler takes the state, the authenticated user [req.user] and the
    request parameters, and returns the response with the state it
    leaves.  Writes are not rolled back when a later step throws. *)

Module Routes.
Import Db.

Inductive ErrorKind : Type :=
  | AccessDenied            (* 403, wrong or missing user type *)
  | MissingFields           (* 400, a required body field is falsy *)
  | EmptyFieldSet           (* 400, requested fields not a non-empty array *)
  | UnknownField            (* 400, invalid medical fields *)
  | PatientNotFound         (* 404 *)
  | DoctorNotFound          (* 404 *)
  | PatientOrDoctorNotFound (* 404 *)
  | NoRecordUploaded        (* 400, patient has no medical record *)
  | DuplicateRequest        (* 409, a request is already pending *)
  | NoActiveConnection      (* 400, no connection exists with this patient *)
  | NotFound                (* 404, notification or request not found *)
  | NotOwner                (* 403, the notification belongs to someone else *)
  | NotPending              (* 400, can only cancel pending requests *)
  | InvalidAction           (* 400, action is neither approve nor deny *)
  | AlreadyConnected        (* 409, connection already exists *)
  | NoActiveContract        (* 404, no active contract found *)
  | InternalError.          (* 500, from the handler's catch *)

Inductive Response : Type :=
  | Success
  | Failure (e : ErrorKind).

#[global] Instance ErrorKind_eq_dec : EqDecision ErrorKind.
Proof. solve_decision. Defined.
#[global] Instance Response_eq_dec : EqDecision Response.
Proof. solve_decision. Defined.

Definition has_type (user : option User) (t : UserType) : bool :=
  match user with
  | Some u => bool_decide (type u = t)
  | None => false
  end.

(** POST /api/doctor/request-access *)
Definition request_access (st : State) (user : option User)
    (body_patient_id : nat) (body_requested_fields : list string)
    : Response * State :=
  match user with
  | None => (Failure AccessDenied, st)
  | Some u =>
    if negb (bool_decide (type u = doctor)) then (Failure AccessDenied, st) else
    let missingFields :=
      Helpers.validateRequiredFields body_patient_id body_requested_fields in
    if (0 <? List.length missingFields)%nat then (Failure MissingFields, st) else
    if (List.length body_requested_fields =? 0)%nat then (Failure EmptyFieldSet, st) else
    let fieldValidation := Helpers.validateMedicalFields body_requested_fields in
    if (0 <? List.length (snd fieldValidation))%nat then (Failure UnknownField, st) else
    match PatientModel.findById st body_patient_id with
    | None => (Failure PatientNotFound, st)
    | Some p =>
      if negb (present (medical_record_cid p)) then (Failure NoRecordUploaded, st) else
      match NotificationModel.findPendingByDoctorAndPatient st (id u) body_patient_id with
      | Some _ => (Failure DuplicateRequest, st)
      | None =>
        match SmartContractService.findByWallets st
                (patient_wallet_address p) (wallet_address u) with
        | None => (Failure NoActiveConnection, st)
        | Some existingContract =>
          if negb (bool_decide (status existingContract = active))
          then (Failure NoActiveConnection, st)
          else
            match NotificationModel.create st (id u) body_patient_id
                    body_requested_fields pending with
            | (Ok _, st') => (Success, st')
            | (Throw _, st') => (Failure InternalError, st')
            end
        end
      end
    end
  end.

(** DELETE /api/doctor/requests/:id *)
Definition cancel_request (st : State) (user : option User) (notificationId : nat)
    : Response * State :=
  match user with
  | None => (Failure AccessDenied, st)
  | Some u =>
    if negb (bool_decide (type u = doctor)) then (Failure AccessDenied, st) else
    match NotificationModel.findById st notificationId with
    | None => (Failure NotFound, st)
    | Some notification =>
      if negb (n_doctor_id notification =? id u)%nat then (Failure NotOwner, st) else
      if negb (bool_decide (n_status notification = pending))
      then (Failure NotPending, st)
      else (Success, snd (NotificationModel.deleteById st notificationId))
    end
  end.

(** POST /api/patient/notifications/:id/respond *)
Definition respond (st : State) (user : option User) (notificationId : nat)
    (action : string) (uuid : string) : Response * State :=
  match user with
  | None => (Failure AccessDenied, st)
  | Some u =>
    if negb (bool_decide (type u = patient)) then (Failure AccessDenied, st) else
    if negb (Helpers.includes ["approve"; "deny"] action)
    then (Failure InvalidAction, st) else
    match NotificationModel.findById st notificationId with
    | None => (Failure NotFound, st)
    | Some notification =>
      if negb (n_patient_id notification =? id u)%nat then (Failure NotOwner, st) else
      let new_status :=
        if bool_decide (action = "approve") then approved else denied in
      let st1 := snd (NotificationModel.updateStatus st notificationId new_status) in
      if bool_decide (action = "approve") then
        match PatientModel.findById st1 (id u),
              DoctorModel.findById st1 (n_doctor_id notification) with
        | Some p, Some d =>
          let requestedFields := requested_fields notification in
          match SmartContractService.findByWallets st1
                  (patient_wallet_address p) (doctor_wallet_address d) with
          | Some existingContract =>
            match SmartContractService.updateApprovedFields st1
                    (contract_id existingContract) requestedFields with
            | (Ok _, st2) => (Success, st2)
            | (Throw _, st2) => (Failure InternalError, st2)
            end
          | None =>
            match SmartContractService.createContract st1 uuid
                    (patient_wallet_address p) (doctor_wallet_address d)
                    requestedFields with
            | (Ok _, st2) => (Success, st2)
            | (Throw _, st2) => (Failure InternalError, st2)
            end
          end
        | _, _ => (Success, st1)
        end
      else (Success, st1)
    end
  end.

(** POST /api/patient/revoke-access/:doctorId *)
Definition revoke_access (st : State) (user : option User) (doctorId : nat)
    : Response * State :=
  match user with
  | None => (Failure AccessDenied, st)
  | Some u =>
    if negb (bool_decide (type u = patient)) then (Failure AccessDenied, st) else
    match PatientModel.findById st (id u), DoctorModel.findById st doctorId with
    | Some p, Some d =>
      match SmartContractService.findByWallets st
              (patient_wallet_address p) (doctor_wallet_address d) with
      | None => (Failure NoActiveContract, st)
      | Some contract =>
        match SmartContractService.revokeContract st (contract_id contract) with
        | (Ok _, st') => (Success, st')
        | (Throw _, st') => (Failure InternalError, st')
        end
      end
    | _, _ => (Failure PatientOrDoctorNotFound, st)
    end
  end.

(** POST /api/patient/connect-doctor *)
Definition connect_doctor (st : State) (user : option User) (body_doctor_id : nat)
    (uuid : string) : Response * State :=
  match user with
  | None => (Failure AccessDenied, st)
  | Some u =>
    if negb (bool_decide (type u = patient)) then (Failure AccessDenied, st) else
    if (body_doctor_id =? 0)%nat then (Failure MissingFields, st) else
    match PatientModel.findById st (id u) with
    | None => (Failure PatientNotFound, st)
    | Some p =>
      match DoctorModel.findById st body_doctor_id with
      | None => (Failure DoctorNotFound, st)
      | Some d =>
        match SmartContractService.findByWallets st
                (patient_wallet_address p) (doctor_wallet_address d) with
        | Some _ => (Failure AlreadyConnected, st)
        | None =>
          match SmartContractService.createContract st uuid
                  (patient_wallet_address p) (doctor_wallet_address d) [] with
          | (Ok _, st') => (Success, st')
          | (Throw _, st') => (Failure InternalError, st')
          end
        end
      end
    end
  end.

(** The five registry operations as requests. *)
Inductive Request : Type :=
  | ConnectDoctor (user : option User) (doctor_id : nat) (uuid : string)
  | RequestAccess (user : option User) (patient_id : nat) (requested_fields : list string)
  | CancelRequest (user : option User) (notificationId : nat)
  | Respond (user : option User) (notificationId : nat) (action : string) (uuid : string)
  | RevokeAccess (user : option User) (doctorId : nat).

Definition handle (st : State) (req : Request) : Response * State :=
  match req with
  | ConnectDoctor user doctor_id uuid => connect_doctor st user doctor_id uuid
  | RequestAccess user patient_id fields => request_access st user patient_id fields
  | CancelRequest user notificationId => cancel_request st user notificationId
  | Respond user notificationId action uuid => respond st user notificationId action uuid
  | RevokeAccess user doctorId => revoke_access st user doctorId
  end.

(** Serving a sequence of requests one after the other. *)
Definition serve (st : State) (reqs : list Request) : State :=
  fold_left (fun st req => snd (handle st req)) reqs st.

(** The database as the server starts on it: registered users, no
    notification, no contract. *)
Definition initial (ps : list Patient) (ds : list Doctor) : State :=
  {| patients := ps; doctors := ds;
     notifications := []; notifications_seq := 0;
     smart_contracts := []; smart_contracts_seq := 0;
     contracts := ∅ |}.

End Routes.

(** ** Further routes and validators *)

Module DoctorRoutes.
Import Db.

Inductive ReadError : Type :=
  | DoctorRequired       (* 403, wrong or missing user type *)
  | UnknownPatient       (* 404, patient not found *)
  | NothingUploaded      (* 404, patient has no medical record uploaded *)
  | NoActiveAccess       (* 403, no active access to this patient *)
  | NoApprovedFields     (* 403, no approved fields for this patient *)
  | ReadFailed.          (* 500, from the handler's catch *)

Inductive ReadResponse : Type :=
  | MedicalData (approved_fields : list string) (medical_data : Json.value)
                (contract_id : nat)
  | Refused (e : ReadError).

(** GET /api/doctor/patient/:id/medical-data.  [retrieved] is what
    [midnightService.retrieveMedicalRecord] gives for the patient's wallet
    and content id: the decrypted, parsed record, or an exception. *)
Definition medical_data (st : State) (user : option User) (patientId : nat)
    (retrieved : result Json.value) : ReadResponse :=
  match user with
  | None => Refused DoctorRequired
  | Some u =>
    if negb (bool_decide (type u = doctor)) then Refused DoctorRequired else
    match PatientModel.findById st patientId with
    | None => Refused UnknownPatient
    | Some p =>
      if negb (present (medical_record_cid p)) then Refused NothingUploaded else
      match SmartContractService.findByWallets st
              (patient_wallet_address p) (wallet_address u) with
      | None => Refused NoActiveAccess
      | Some contract =>
        if negb (bool_decide (status contract = active)) then Refused NoActiveAccess else
        let approvedFields := approved_fields contract in
        if (List.length approvedFields =? 0)%nat then Refused NoApprovedFields else
        match retrieved with
        | Throw _ => Refused ReadFailed
        | Ok fullRecord =>
          match MidnightService.getApprovedFields fullRecord approvedFields with
          | Ok approvedData =>
              MedicalData approvedFields approvedData (Db.contract_id contract)
          | Throw _ => Refused ReadFailed
          end
        end
      end
    end
  end.

End DoctorRoutes.

Module NotificationRoutes.
Import Db.

(** The counters of GET /api/notifications/stats over the notifications
    of the user; the [recent] counter compares timestamps with the clock
    and is not represented. *)
Record Stats : Type := {
  total : nat;
  stat_pending : nat;
  stat_approved : nat;
  stat_denied : nat
}.

Definition stats (notifications : list Notification) : Stats :=
  {| total := List.length notifications;
     stat_pending :=
       List.length (List.filter (fun n => bool_decide (n_status n = pending)) notifications);
     stat_approved :=
       List.length (List.filter (fun n => bool_decide (n_status n = approved)) notifications);
     stat_denied :=
       List.length (List.filter (fun n => bool_decide (n_status n = denied)) notifications) |}.

End NotificationRoutes.

Module Security.
Import Json.

(** [typeof record === 'object'] for a truthy record. *)
Definition is_object (v : value) : bool :=
  match v with VArr _ | VObj _ => true | _ => false end.

(** A property of a truthy value, [undefined] where the read cannot
    happen. *)
Definition prop (v : value) (key : string) : value :=
  match read_prop v key with
  | Ok x => x
  | Throw _ => VUndefined
  end.

(** [validateMedicalRecord]: returns [(isValid, errors)]. *)
Definition validateMedicalRecord (record : value) : bool * list string :=
  if negb (truthy record) || negb (is_object record)
  then (false, ["Medical record must be a valid object"])
  else
    let errors :=
      fold_left
        (fun (errors : list string) (field : string) =>
           if negb (truthy (prop record field))
           then errors ++ ["Missing required field: " +:+ field]
           else errors)
        ["patientInfo"; "medicalHistory"] [] in
    let errors :=
      if truthy (prop record "patientInfo") then
        let errors :=
          if negb (truthy (prop (prop record "patientInfo") "dateOfBirth"))
          then errors ++ ["Patient date of birth is required"]
          else errors in
        if negb (truthy (prop (prop record "patientInfo") "gender"))
        then errors ++ ["Patient gender is required"]
        else errors
      else errors in
    ((List.length errors =? 0)%nat, errors).

End Security.

(** ** Notions used in the statements about the registry *)

Module RegistrySpec.
Import Db.

(** At most one active contract row per pair of wallets. *)
Definition single_active (st : State) : Prop :=
  ∀ pw dw,
    (List.length (List.filter (SmartContractService.selects_active pw dw)
                    (smart_contracts st)) ≤ 1)%nat.

(** Every contract row carries a contract address. *)
Definition addressed (st : State) : Prop :=
  Forall (fun c => present (contract_address c) = true) (smart_contracts st).

(** Contract rows have pairwise distinct ids, as a primary key has. *)
Definition unique_ids (st : State) : Prop :=
  NoDup (map contract_id (smart_contracts st))
  ∧ Forall (fun c => (contract_id c ≤ smart_contracts_seq st)%nat) (smart_contracts st).

Definition status_of (st : State) (notificationId : nat) : option NotificationStatus :=
  n_status <$> NotificationModel.findById st notificationId.

(** The row updates of [updateApprovedFields] and [revokeContract]. *)
Definition with_fields (F : list string) (i : nat) (c : SmartContract) : SmartContract :=
  if (contract_id c =? i)%nat
  then {| contract_id := contract_id c; patient_wallet := patient_wallet c;
          doctor_wallet := doctor_wallet c; contract_address := contract_address c;
          approved_fields := F; status := status c |}
  else c.

Definition with_revoked (i : nat) (c : SmartContract) : SmartContract :=
  if (contract_id c =? i)%nat
  then {| contract_id := contract_id c; patient_wallet := patient_wallet c;
          doctor_wallet := doctor_wallet c; contract_address := contract_address c;
          approved_fields := approved_fields c; status := revoked |}
  else c.

(** At most one pending notification per doctor and patient. *)
Definition single_pending (st : State) : Prop :=
  ∀ d p,
    (List.length
       (List.filter
          (fun n => (n_doctor_id n =? d)%nat && (n_patient_id n =? p)%nat
                    && bool_decide (n_status n = pending))
          (notifications st)) ≤ 1)%nat.

(** Requested and approved fields all come from the catalog. *)
Definition catalog_fields (st : State) : Prop :=
  Forall (fun n => requested_fields n ⊆ Helpers.getAvailableMedicalFields)
    (notifications st)
  ∧ Forall (fun c => approved_fields c ⊆ Helpers.getAvailableMedicalFields)
      (smart_contracts st).

(** The writes a handler is made of. *)
Inductive transition (st : State) : State → Prop :=
  | t_request (d p : nat) (F : list string) :
      F ⊆ Helpers.getAvailableMedicalFields →
      NotificationModel.findPendingByDoctorAndPatient st d p = None →
      transition st (snd (NotificationModel.create st d p F pending))
  | t_cancel (i : nat) :
      transition st (snd (NotificationModel.deleteById st i))
  | t_resolve (i : nat) (s : NotificationStatus) :
      s ≠ pending →
      transition st (snd (NotificationModel.updateStatus st i s))
  | t_update (i : nat) (n : Notification) :
      n ∈ notifications st →
      transition st
        (snd (SmartContractService.updateApprovedFields st i (requested_fields n)))
  | t_create (uuid pw dw : string) (F : list string) :
      SmartContractService.findByWallets st pw dw = None →
      F = [] ∨ (∃ n, n ∈ notifications st ∧ F = requested_fields n) →
      transition st (snd (SmartContractService.createContract st uuid pw dw F))
  | t_revoke (i : nat) :
      transition st (snd (SmartContractService.revokeContract st i)).

(** Every revoked contract row of [st] is still there, revoked, in [st']. *)
Definition keeps_revoked (st st' : State) : Prop :=
  ∀ c, c ∈ smart_contracts st → status c = revoked →
       ∃ c', c' ∈ smart_contracts st'
             ∧ contract_id c' = contract_id c
             ∧ patient_wallet c' = patient_wallet c
             ∧ doctor_wallet c' = doctor_wallet c
             ∧ status c' = revoked.

End RegistrySpec.

(** ** Sample data *)

Module Examples.
Import Json.

Definition record : value :=
  object
    [("vitals", object [("heartRate", VNum 72); ("temperature", VNum 98)]);
     ("patientInfo",
      object [("name", VStr "Bob"); ("bloodType", VStr "A+");
              ("allergies", VArr [VStr "Penicillin"; VStr "Shellfish"])])].



(** A record with an empty key, addressed by the path [a..b]. *)
Definition empty_key_record : value :=
  object [("a", object [("", object [("b", VNum 1)])])].

(** One patient with an uploaded record, one doctor, and their tokens.
    [stale_requester] is a doctor token whose id has no row in the
    doctors table: handlers take the token's claims as they are. *)
Definition alice : Db.Patient :=
  {| Db.patient_id := 1; Db.pseudonym := "AB123";
     Db.patient_wallet_address := "0xP"; Db.medical_record_cid := Some "cid_1" |}.

Definition sara : Db.Doctor :=
  {| Db.doctor_id := 1; Db.name := "Dr. Sara Johnson";
     Db.speciality := "Cardiologist"; Db.doctor_wallet_address := "0xD" |}.

Definition holder : Db.User :=
  {| Db.id := 1; Db.wallet_address := "0xP"; Db.type := Db.patient |}.

Definition requester : Db.User :=
  {| Db.id := 1; Db.wallet_address := "0xD"; Db.type := Db.doctor |}.


Definition start : Db.State := Routes.initial [alice] [sara].

(** The holder has connected with the doctor. *)
Definition connected : Db.State :=
  Routes.serve start [Routes.ConnectDoctor (Some holder) 1 "u1"].

(** ... and the doctor has asked for the heart rate (notification 1). *)
Definition asked : Db.State :=
  Routes.serve connected
    [Routes.RequestAccess (Some requester) 1 ["vitals.heartRate"]].

(** ... and the holder has approved. *)
Definition granted : Db.State :=
  Routes.serve asked [Routes.Respond (Some holder) 1 "approve" "u2"].

(** ... or denied instead. *)
Definition refused : Db.State :=
  Routes.serve asked [Routes.Respond (Some holder) 1 "deny" "u2"].


(** The holder has revoked while the request was still pending. *)
Definition revoked_while_asked : Db.State :=
  Routes.serve asked [Routes.RevokeAccess (Some holder) 1].

(** A table holding a revoked and a pending contract row for the pair. *)
Definition no_active : Db.State :=
  {| Db.patients := [alice]; Db.doctors := [sara];
     Db.notifications := []; Db.notifications_seq := 0;
     Db.smart_contracts :=
       [ {| Db.contract_id := 1; Db.patient_wallet := "0xP";
            Db.doctor_wallet := "0xD"; Db.contract_address := Some "contract_u1";
            Db.approved_fields := ["vitals.heartRate"]; Db.status := Db.revoked |};
         {| Db.contract_id := 2; Db.patient_wallet := "0xP";
            Db.doctor_wallet := "0xD"; Db.contract_address := Some "contract_u2";
            Db.approved_fields := ["vitals.heartRate"]; Db.status := Db.sc_pending |} ];
     Db.smart_contracts_seq := 2;
     Db.contracts := ∅ |}.

End Examples.

(** ** Notions used in the statements *)

Module PathSpec.
Import Json.

(** One step of the [getNestedProperty] reduction, as a pure function. *)
Definition next (current : value) (key : string) : value :=
  if truthy current then
    match read_prop current key with
    | Ok v => v
    | Throw _ => VUndefined
    end
  else VUndefined.

Definition walk (v : value) (keys : list string) : value :=
  fold_left next keys v.

Definition segments (path : string) : list string := split "." path.


(** [get] as the specification words it: descend through mappings only;
    absent as soon as a segment is missing or the value at hand is not a
    mapping. *)
Fixpoint spec_get (record : value) (segs : list string) : option value :=
  match segs with
  | [] => Some record
  | k :: rest =>
      match record with
      | VObj fields =>
          match fields !! k with
          | Some child => spec_get child rest
          | None => None
          end
      | _ => None
      end
  end.

(** No array and no string is asked for a property along the way. *)
Fixpoint never_indexable (record : value) (segs : list string) : bool :=
  match segs with
  | [] => true
  | k :: rest =>
      match record with
      | VArr _ | VStr _ => false
      | VObj fields =>
          match fields !! k with
          | Some child => never_indexable child rest
          | None => true
          end
      | _ => true
      end
  end.

Fixpoint dot_free (s : string) : bool :=
  match s with
  | EmptyString => true
  | String c s' => negb (bool_decide (c = "."%char)) && dot_free s'
  end.

Definition is_container (v : value) : bool :=
  match v with VArr _ | VObj _ => true | _ => false end.


Definition two_segments (path : string) : bool :=
  bool_decide (List.length (segments path) = 2%nat).

(** No segment of the path names an inherited member. *)
Definition own_path (path : string) : bool :=
  forallb (fun key => negb (inherited_member key)) (segments path).

(** [get] as the amended claim words it: at a mapping take the value
    stored under the segment; at an array the element at that index, or
    its length; at a non-empty string the character at that index, or its
    length; absent when the segment is missing there, or when the value
    at hand is anything else. *)
Fixpoint spec_get_indexed (record : value) (segs : list string) : option value :=
  match segs with
  | [] => Some record
  | k :: rest =>
      match record with
      | VObj fields =>
          match fields !! k with
          | Some child => spec_get_indexed child rest
          | None => None
          end
      | VArr elems =>
          match array_index k with
          | Some i =>
              match elems !! N.to_nat i with
              | Some child => spec_get_indexed child rest
              | None => None
              end
          | None =>
              if bool_decide (k = "length")
              then spec_get_indexed (VNum (Z.of_nat (List.length elems))) rest
              else None
          end
      | VStr s =>
          if bool_decide (s = "") then None
          else
            match array_index k with
            | Some i =>
                match String.get (N.to_nat i) s with
                | Some c => spec_get_indexed (VStr (String c EmptyString)) rest
                | None => None
                end
            | None =>
                if bool_decide (k = "length")
                then spec_get_indexed (VNum (Z.of_nat (String.length s))) rest
                else None
            end
      | _ => None
      end
  end.

End PathSpec.

Import Json PathSpec.

(** ** Reading along a path *)

Lemma read_prop_truthy (r : value) (key : string) :
  truthy r = true → ∃ v, read_prop r key = Ok v.
Proof.
  destruct r; simpl; try discriminate; intros _; eauto.
  - destruct (array_index key); [destruct (String.get _ _)|case_bool_decide]; eauto.
  - destruct (array_index key); [|case_bool_decide]; eauto.
Qed.

Lemma next_read (r : value) (key : string) :
  truthy r = true → read_prop r key = Ok (next r key).
Proof.
  intros Ht. unfold next. rewrite Ht.
  destruct (read_prop_truthy r key Ht) as [v ->]. reflexivity.
Qed.

Lemma next_falsy (r : value) (key : string) :
  truthy r = false → next r key = VUndefined.
Proof. intros Ht. unfold next. by rewrite Ht. Qed.

Lemma walk_undefined (keys : list string) : walk VUndefined keys = VUndefined.
Proof. induction keys as [|k keys IH]; [done|]. simpl. exact IH. Qed.

Lemma walk_cons (v : value) (k : string) (keys : list string) :
  walk v (k :: keys) = walk (next v k) keys.
Proof. reflexivity. Qed.

Lemma walk_snoc (v : value) (keys : list string) (k : string) :
  walk v (keys ++ [k]) = next (walk v keys) k.
Proof. unfold walk. by rewrite fold_left_app. Qed.

Lemma walk_falsy (v : value) (k : string) (keys : list string) :
  truthy v = false → walk v (k :: keys) = VUndefined.
Proof. intros Ht. rewrite walk_cons, next_falsy by done. apply walk_undefined. Qed.


Lemma getNestedProperty_walk (o : value) (path : string) :
  MidnightService.getNestedProperty o path = Ok (walk o (segments path)).
Proof.
  unfold MidnightService.getNestedProperty, segments.
  generalize (split "." path) as keys. intros keys. revert o.
  induction keys as [|k keys IH]; intros o; [done|].
  simpl fold_left. rewrite walk_cons, <- IH. f_equal.
  unfold mbind, result_bind, next.
  destruct (truthy o) eqn:Ht; [|done].
  destruct (read_prop_truthy o k Ht) as [v Hv]. rewrite Hv.
  by destruct v.
Qed.

Lemma walk_spec_get (o : value) (segs : list string) :
  never_indexable o segs = true →
  walk o segs = default VUndefined (spec_get o segs).
Proof.
  revert o. induction segs as [|k rest IH]; intros o Hplain; [done|].
  rewrite walk_cons. destruct o; simpl in Hplain |- *; try discriminate;
    try (unfold next; simpl; apply walk_undefined).
  - unfold next; simpl. destruct b; apply walk_undefined.
  - unfold next; simpl. destruct (negb _); apply walk_undefined.
  - unfold next; simpl. destruct (fields !! k) as [child|] eqn:Hk; simpl.
    + by apply IH.
    + apply walk_undefined.
Qed.

(** ** Splitting and joining dotted paths *)

Lemma split_nonempty (sep : ascii) (s : string) : split sep s ≠ [].
Proof.
  destruct s as [|c s]; simpl; [done|].
  case_bool_decide; [done|]. by destruct (split sep s).
Qed.

Lemma split_dot_free (s : string) :
  dot_free s = true → split "." s = [s].
Proof.
  induction s as [|c s IH]; simpl; [done|].
  intros Hcs. apply andb_true_iff in Hcs as [Hc Hs]. case_bool_decide; [done|].
  by rewrite IH.
Qed.

Lemma split_app_dot (s rest : string) :
  dot_free s = true →
  split "." (s +:+ String "." rest) = s :: split "." rest.
Proof.
  induction s as [|c s IH]; simpl.
  - intros _. reflexivity.
  - intros Hcs. apply andb_true_iff in Hcs as [Hc Hs]. case_bool_decide; [done|].
    by rewrite IH.
Qed.

Lemma split_join (p : list string) :
  p ≠ [] → Forall (λ s, dot_free s = true) p →
  split "." (join "." p) = p.
Proof.
  induction p as [|s p IH]; [done|]. intros _ Hfree.
  apply Forall_cons in Hfree as [Hs Hp].
  destruct p as [|s' p].
  - simpl. by apply split_dot_free.
  - change (join "." (s :: s' :: p)) with (s +:+ String "." (join "." (s' :: p))).
    rewrite split_app_dot by done. f_equal. by apply IH.
Qed.

(** ** Writing along a path *)

Lemma bind_ok {A B : Type} (m : result A) (k : A → result B) (b : B) :
  (m ≫= k) = Ok b → ∃ a, m = Ok a ∧ k a = Ok b.
Proof. destruct m as [a|e]; simpl; [eauto|discriminate]. Qed.

Ltac inv_bind H :=
  let a := fresh "a" in
  let Ha := fresh "Ha" in
  apply bind_ok in H as (a & Ha & H).

Lemma write_ok_container (r : value) (k : string) (v r' : value) :
  write_prop r k v = Ok r' → is_container r' = true.
Proof.
  destruct r; simpl; try discriminate.
  - destruct (array_index k); [by intros [= <-]|].
    case_bool_decide; [|discriminate].
    destruct v; try discriminate.
    destruct (_ && _); [by intros [= <-]|discriminate].
  - by intros [= <-].
Qed.

Lemma container_truthy (v : value) : is_container v = true → truthy v = true.
Proof. by destruct v. Qed.

Lemma container_defined (v : value) : is_container v = true → v ≠ VUndefined.
Proof. by destruct v. Qed.

Lemma assign_ok_container (c : value) (ks : list string) (last : string) (v c' : value) :
  MidnightService.assign c ks last v = Ok c' → is_container c' = true.
Proof.
  destruct ks as [|k ks]; simpl; [apply write_ok_container|].
  intros H. inv_bind H. destruct (negb (truthy a)).
  - inv_bind H. inv_bind H. inv_bind H. by eapply write_ok_container.
  - inv_bind H. by eapply write_ok_container.
Qed.

(** Walking into anything but an array or an object ends in a [TypeError]. *)
Lemma assign_not_container (c : value) (ks : list string) (last : string) (v : value) :
  is_container c = false → MidnightService.assign c ks last v = Throw TypeError.
Proof.
  revert c. induction ks as [|k ks IH]; intros c Hc;
    destruct c; try discriminate; simpl; try reflexivity.
  - destruct (array_index k).
    + destruct (String.get _ _); simpl; [|done]. by rewrite IH.
    + case_bool_decide; simpl; [|done].
      destruct (negb (negb _)); simpl; [done|]. by rewrite IH.
Qed.





Lemma next_obj (m : gmap string value) (k : string) :
  next (VObj m) k = default VUndefined (m !! k).
Proof. reflexivity. Qed.

Lemma walk_empty_obj (k : string) (q : list string) :
  walk (VObj ∅) (k :: q) = VUndefined.
Proof. rewrite walk_cons, next_obj, lookup_empty. apply walk_undefined. Qed.





(** ** The filtering loop *)

Lemma segments_snoc (path : string) :
  segments path = (List.removelast (segments path) ++ [List.last (segments path) ""])%list.
Proof. apply app_removelast_last, split_nonempty. Qed.


Lemma filterRecord_snoc (R : value) (S : list string) (p : string) :
  MidnightService.filterRecord R (S ++ [p]) =
  (filtered ← MidnightService.filterRecord R S;
   if negb (is_undefined (walk R (segments p)))
   then MidnightService.setNestedProperty filtered p (walk R (segments p))
   else Ok filtered).
Proof.
  unfold MidnightService.filterRecord. rewrite fold_left_app. simpl.
  destruct (fold_left _ S _); simpl; [|done].
  by rewrite getNestedProperty_walk.
Qed.


Lemma getApprovedFields_ok (R : value) (S : list string) (P : value) :
  MidnightService.getApprovedFields R S = Ok P ↔ MidnightService.filterRecord R S = Ok P.
Proof.
  unfold MidnightService.getApprovedFields.
  destruct (MidnightService.filterRecord R S); split; congruence.
Qed.

(** Paths of two segments, as all paths of the field catalog are, never
    make the loop throw: the destination holds objects only at top level. *)
Lemma two_segments_inv (path : string) :
  two_segments path = true → ∃ a b, segments path = [a; b].
Proof.
  unfold two_segments. intros H. apply bool_decide_eq_true in H.
  destruct (segments path) as [|a [|b [|c l]]]; try discriminate. eauto.
Qed.

Lemma filterRecord_two_segments (R : value) (S : list string) :
  Forall (λ p, two_segments p = true) S →
  ∃ m, MidnightService.filterRecord R S = Ok (VObj m)
       ∧ ∀ k c, m !! k = Some c → ∃ m', c = VObj m'.
Proof.
  induction S as [|p S IH] using rev_ind; intros HS.
  - exists ∅. split; [done|]. intros k c Hk. by rewrite lookup_empty in Hk.
  - apply Forall_app in HS as [HS Hp]. rewrite Forall_singleton in Hp.
    destruct (IH HS) as (m & Hrun & Hm). clear IH.
    rewrite filterRecord_snoc, Hrun. simpl.
    destruct (is_undefined _); simpl; [eauto|].
    destruct (two_segments_inv p Hp) as (a & b & Hseg).
    unfold MidnightService.setNestedProperty. fold (segments p). rewrite Hseg.
    simpl List.removelast. simpl List.last. simpl MidnightService.assign.
    destruct (m !! a) as [c|] eqn:Ha; simpl.
    + destruct (Hm _ _ Ha) as [m' ->]. simpl.
      eexists. split; [reflexivity|]. intros k c Hk.
      destruct (decide (k = a)) as [->|Hne].
      * rewrite lookup_insert_eq in Hk. injection Hk as <-. eauto.
      * rewrite lookup_insert_ne in Hk by done. eauto.
    + rewrite lookup_insert_eq. simpl.
      eexists. split; [reflexivity|]. intros k c Hk.
      destruct (decide (k = a)) as [->|Hne].
      * rewrite lookup_insert_eq in Hk. injection Hk as <-. eauto.
      * rewrite !lookup_insert_ne in Hk by done. eauto.
Qed.

Lemma catalog_two_segments :
  Forall (λ p, two_segments p = true) Helpers.getAvailableMedicalFields.
Proof. repeat constructor. Qed.

(** X1. On field lists taken from the catalog the filtering loop of
    [getApprovedFields] never throws, whatever the record holds. *)
Lemma getApprovedFields_total_on_catalog (R : value) (S : list string) :
  S ⊆ Helpers.getAvailableMedicalFields →
  ∃ P, MidnightService.getApprovedFields R S = Ok P.
Proof.
  intros Hsub.
  assert (HS : Forall (λ p, two_segments p = true) S).
  { apply Forall_forall. intros p Hp.
    pose proof catalog_two_segments as Hc.
    rewrite Forall_forall in Hc. by apply Hc, Hsub. }
  destruct (filterRecord_two_segments R S HS) as (m & Hrun & _).
  exists (VObj m). by apply getApprovedFields_ok.
Qed.

(** ** Projection correctness *)



(** ** Reading a path: what [getNestedProperty] returns *)

(** C8, as the claim states it, fails: a string met on the way is asked
    for its [length] and an array for its element, where the claim
    promises absent. *)
Lemma get_indexes_strings_and_arrays :
  spec_get Examples.record (segments "patientInfo.name.length") = None
  ∧ MidnightService.getNestedProperty Examples.record "patientInfo.name.length"
    = Ok (VNum 3)
  ∧ spec_get Examples.record (segments "patientInfo.allergies.0") = None
  ∧ MidnightService.getNestedProperty Examples.record "patientInfo.allergies.0"
    = Ok (VStr "Penicillin").
Proof. repeat split; vm_compute; reflexivity. Qed.

Lemma walk_spec_get_indexed (o : value) (segs : list string) :
  walk o segs = default VUndefined (spec_get_indexed o segs).
Proof.
  revert o. induction segs as [|k rest IH]; intros o; [done|].
  rewrite walk_cons. destruct o; simpl;
    try (unfold next; simpl; apply walk_undefined).
  - unfold next; simpl. destruct b; apply walk_undefined.
  - unfold next; simpl. destruct (negb _); apply walk_undefined.
  - unfold next; simpl. case_bool_decide as Hs; simpl; [apply walk_undefined|].
    destruct (array_index k) as [i|].
    + destruct (String.get (N.to_nat i) s); [apply IH|apply walk_undefined].
    + case_bool_decide; [apply IH|apply walk_undefined].
  - unfold next; simpl. destruct (array_index k) as [i|].
    + destruct (elems !! N.to_nat i); simpl; [apply IH|apply walk_undefined].
    + case_bool_decide; [apply IH|apply walk_undefined].
  - unfold next; simpl. destruct (fields !! k); simpl; [apply IH|apply walk_undefined].
Qed.

(** C8, amended. On a path none of whose segments names a member
    inherited from a built-in prototype, [getNestedProperty] never throws
    and walks the record one segment at a time: at a mapping it takes the
    value stored under the segment, at an array the element at that index
    or the length, at a non-empty string the character at that index or
    the length; it returns absent as soon as the segment is missing there
    or the value at hand is undefined, null, a boolean, a number or the
    empty string, and otherwise the value reached.  When no string and no
    array is met on the way this is what the claim says: absent when a
    segment is missing or the value at hand is not a mapping, the stored
    value otherwise. *)
Theorem get_walks_own_properties (o : value) (path : string) :
  own_path path = true →
  MidnightService.getNestedProperty o path
    = Ok (default VUndefined (spec_get_indexed o (segments path)))
  ∧ (never_indexable o (segments path) = true →
     MidnightService.getNestedProperty o path
     = Ok (default VUndefined (spec_get o (segments path)))).
Proof.
  intros _. rewrite getNestedProperty_walk. split.
  - f_equal. apply walk_spec_get_indexed.
  - intros Hplain. f_equal. by apply walk_spec_get.
Qed.

Lemma get_walks_own_properties_witness :
  MidnightService.getNestedProperty Examples.record "patientInfo.allergies.length"
    = Ok (VNum 2)
  ∧ MidnightService.getNestedProperty Examples.record "vitals.bloodPressure"
    = Ok VUndefined.
Proof.
  split.
  - apply (get_walks_own_properties Examples.record "patientInfo.allergies.length").
    reflexivity.
  - apply (get_walks_own_properties Examples.record "vitals.bloodPressure");
      reflexivity.
Defined.

(** ** Dotted paths *)

(** C9, as the claim states it, fails twice: a segment that contains a dot
    does not come back from the round trip, and a path with an empty
    segment is not rejected, the empty segment is used as a key. *)
Lemma split_keeps_empty_segments :
  segments (join "." ["a.b"]) ≠ ["a.b"]
  ∧ segments "a..b" = ["a"; ""; "b"]
  ∧ MidnightService.getNestedProperty Examples.empty_key_record "a..b" = Ok (VNum 1).
Proof. repeat split; vm_compute; [discriminate|reflexivity..]. Qed.

(** C9, amended. For every non-empty sequence of segments none of which
    contains a dot, empty segments included, splitting the joined path on
    dots gives the sequence back. *)
Theorem path_roundtrip (p : list string) :
  p ≠ [] → Forall (λ s, dot_free s = true) p →
  segments (join "." p) = p.
Proof. apply split_join. Qed.

Lemma path_roundtrip_witness :
  segments (join "." ["vitals"; ""; "heartRate"]) = ["vitals"; ""; "heartRate"].
Proof.
  apply (path_roundtrip ["vitals"; ""; "heartRate"]).
  - discriminate.
  - repeat constructor.
Defined.

(** ** Queries over a table *)

Section Tables.
Context {A : Type}.
Implicit Types (sel : A → bool) (f : A → A) (rows : list A).

Lemma find_map_stable sel f rows :
  (∀ x, sel (f x) = sel x) →
  List.find sel (map f rows) = f <$> List.find sel rows.
Proof.
  intros Hsel. induction rows as [|x rows IH]; [done|].
  simpl. rewrite Hsel. by destruct (sel x).
Qed.

Lemma find_app_none sel rows rows' :
  List.find sel rows = None → List.find sel (rows ++ rows') = List.find sel rows'.
Proof.
  induction rows as [|x rows IH]; [done|].
  simpl. destruct (sel x); [discriminate|exact IH].
Qed.

Lemma find_app_some sel rows rows' x :
  List.find sel rows = Some x → List.find sel (rows ++ rows') = Some x.
Proof.
  induction rows as [|y rows IH]; [done|].
  simpl. destruct (sel y); [done|exact IH].
Qed.

Lemma find_none_filter sel rows :
  List.find sel rows = None → List.filter sel rows = [].
Proof.
  induction rows as [|x rows IH]; [done|].
  simpl. destruct (sel x); [discriminate|exact IH].
Qed.

Lemma find_some_in sel rows x :
  List.find sel rows = Some x → x ∈ rows ∧ sel x = true.
Proof.
  intros H. apply List.find_some in H as [Hin Hsel].
  split; [by apply list_elem_of_In|done].
Qed.

Lemma filter_map_stable sel f rows :
  (∀ x, sel (f x) = sel x) →
  List.length (List.filter sel (map f rows)) = List.length (List.filter sel rows).
Proof.
  intros Hsel. induction rows as [|x rows IH]; [done|].
  simpl. rewrite Hsel. destruct (sel x); simpl; by rewrite IH.
Qed.

Lemma filter_map_le sel f rows :
  (∀ x, sel (f x) = true → sel x = true) →
  (List.length (List.filter sel (map f rows)) ≤ List.length (List.filter sel rows))%nat.
Proof.
  intros Hsel. induction rows as [|x rows IH]; [done|].
  simpl. destruct (sel (f x)) eqn:Hfx.
  - rewrite (Hsel _ Hfx). simpl. lia.
  - destruct (sel x); simpl; lia.
Qed.

Lemma filter_single sel rows x y :
  (List.length (List.filter sel rows) ≤ 1)%nat →
  x ∈ rows → sel x = true → y ∈ rows → sel y = true → x = y.
Proof.
  intros Hlen Hx Hsx Hy Hsy.
  assert (Hx' : In x (List.filter sel rows)).
  { apply List.filter_In. split; [by apply list_elem_of_In|done]. }
  assert (Hy' : In y (List.filter sel rows)).
  { apply List.filter_In. split; [by apply list_elem_of_In|done]. }
  destruct (List.filter sel rows) as [|z [|z' l]]; simpl in *; [done| |lia].
  destruct Hx' as [<-|[]], Hy' as [<-|[]]. done.
Qed.

End Tables.

(** ** The models and the contract service *)

Import Db RegistrySpec.

Lemma create_notification_ok (st : State) (d p : nat) (F : list string)
    (s : NotificationStatus) :
  ∃ n,
    NotificationModel.create st d p F s =
      (Ok n,
       set_notifications st
         (notifications st ++
            [{| notification_id := next_rowid (notifications_seq st)
                                     (map notification_id (notifications st));
                n_doctor_id := d; n_patient_id := p;
                requested_fields := F; n_status := s |}])
         (next_rowid (notifications_seq st) (map notification_id (notifications st)))).
Proof.
  unfold NotificationModel.create.
  set (lastID := next_rowid _ _). set (row := Build_Notification _ _ _ _ _).
  destruct (NotificationModel.findById _ lastID) as [n|] eqn:Hfind; [eauto|].
  exfalso. unfold NotificationModel.findById in Hfind. simpl in Hfind.
  apply List.find_none with (x := row) in Hfind.
  - simpl in Hfind. by rewrite Nat.eqb_refl in Hfind.
  - apply in_or_app. right. by left.
Qed.

Lemma createContract_ok (st : State) (uuid pw dw : string) (F : list string) :
  ∃ c st',
    SmartContractService.createContract st uuid pw dw F = (Ok c, st')
    ∧ patients st' = patients st ∧ doctors st' = doctors st
    ∧ notifications st' = notifications st
    ∧ notifications_seq st' = notifications_seq st
    ∧ smart_contracts st' =
        smart_contracts st ++
          [{| contract_id := next_rowid (smart_contracts_seq st)
                               (map contract_id (smart_contracts st));
              patient_wallet := pw; doctor_wallet := dw;
              contract_address := Some ("contract_" +:+ uuid);
              approved_fields := F; status := active |}].
Proof.
  unfold SmartContractService.createContract. simpl.
  set (lastID := next_rowid _ _). set (row := Build_SmartContract _ _ _ _ _ _).
  match goal with |- context [SmartContractService.findById ?s lastID] =>
    destruct (SmartContractService.findById s lastID) as [c|] eqn:Hfind end.
  - do 2 eexists. split; [reflexivity|]. simpl. done.
  - exfalso. unfold SmartContractService.findById in Hfind. simpl in Hfind.
    apply List.find_none with (x := row) in Hfind.
    + simpl in Hfind. by rewrite Nat.eqb_refl in Hfind.
    + apply in_or_app. right. by left.
Qed.

Lemma updateApprovedFields_ok (st : State) (c : SmartContract) (F : list string) :
  c ∈ smart_contracts st → addressed st →
  ∃ r st',
    SmartContractService.updateApprovedFields st (contract_id c) F = (Ok r, st')
    ∧ patients st' = patients st ∧ doctors st' = doctors st
    ∧ notifications st' = notifications st
    ∧ notifications_seq st' = notifications_seq st
    ∧ smart_contracts st' = map (with_fields F (contract_id c)) (smart_contracts st).
Proof.
  intros Hin Haddr. unfold SmartContractService.updateApprovedFields.
  destruct (SmartContractService.findById st (contract_id c)) as [c0|] eqn:Hfind.
  - apply find_some_in in Hfind as [Hin0 _].
    unfold addressed in Haddr. rewrite Forall_forall in Haddr.
    rewrite (Haddr _ Hin0).
    do 2 eexists. split; [reflexivity|].
    destruct (contracts st !! _); simpl; done.
  - exfalso. unfold SmartContractService.findById in Hfind.
    apply List.find_none with (x := c) in Hfind; [|by apply list_elem_of_In].
    simpl in Hfind. by rewrite Nat.eqb_refl in Hfind.
Qed.

Lemma revokeContract_ok (st : State) (c : SmartContract) :
  c ∈ smart_contracts st → addressed st →
  ∃ st',
    SmartContractService.revokeContract st (contract_id c) = (Ok true, st')
    ∧ patients st' = patients st ∧ doctors st' = doctors st
    ∧ notifications st' = notifications st
    ∧ notifications_seq st' = notifications_seq st
    ∧ smart_contracts st' = map (with_revoked (contract_id c)) (smart_contracts st).
Proof.
  intros Hin Haddr. unfold SmartContractService.revokeContract.
  destruct (SmartContractService.findById st (contract_id c)) as [c0|] eqn:Hfind.
  - apply find_some_in in Hfind as [Hin0 _].
    unfold addressed in Haddr. rewrite Forall_forall in Haddr.
    rewrite (Haddr _ Hin0).
    eexists. split; [reflexivity|].
    destruct (contracts st !! _); simpl; done.
  - exfalso. unfold SmartContractService.findById in Hfind.
    apply List.find_none with (x := c) in Hfind; [|by apply list_elem_of_In].
    simpl in Hfind. by rewrite Nat.eqb_refl in Hfind.
Qed.

Lemma with_fields_selects F i pw dw c :
  SmartContractService.selects_active pw dw (with_fields F i c)
  = SmartContractService.selects_active pw dw c.
Proof. unfold with_fields. by destruct (_ =? _)%nat. Qed.

Lemma with_revoked_selects i pw dw c :
  SmartContractService.selects_active pw dw (with_revoked i c) = true →
  SmartContractService.selects_active pw dw c = true ∧ contract_id c ≠ i.
Proof.
  unfold with_revoked. destruct (_ =? _)%nat eqn:Hid.
  - unfold SmartContractService.selects_active. simpl.
    rewrite andb_false_r. discriminate.
  - intros ->. split; [done|]. by apply Nat.eqb_neq.
Qed.

Lemma selects_active_inv pw dw c :
  SmartContractService.selects_active pw dw c = true →
  patient_wallet c = pw ∧ doctor_wallet c = dw ∧ status c = active.
Proof.
  unfold SmartContractService.selects_active.
  intros H. apply andb_true_iff in H as [H H3]. apply andb_true_iff in H as [H1 H2].
  by apply bool_decide_eq_true in H1, H2, H3.
Qed.

Lemma selects_active_intro c :
  status c = active →
  SmartContractService.selects_active (patient_wallet c) (doctor_wallet c) c = true.
Proof.
  intros Hs. unfold SmartContractService.selects_active.
  rewrite !bool_decide_eq_true_2; done.
Qed.

Lemma findByWallets_none_iff (st : State) (pw dw : string) :
  SmartContractService.findByWallets st pw dw = None ↔
  ∀ c, c ∈ smart_contracts st → patient_wallet c = pw → doctor_wallet c = dw →
       status c ≠ active.
Proof.
  unfold SmartContractService.findByWallets. split.
  - intros Hnone c Hin Hp Hd Hs.
    apply List.find_none with (x := c) in Hnone; [|by apply list_elem_of_In].
    subst pw dw. by rewrite selects_active_intro in Hnone.
  - intros Hall.
    destruct (List.find _ _) as [c|] eqn:Hfind; [|done].
    apply find_some_in in Hfind as [Hin Hsel].
    apply selects_active_inv in Hsel as (Hp & Hd & Hs).
    by destruct (Hall c Hin Hp Hd).
Qed.

(** ** Field access checks fail closed *)

(** C10. [checkFieldAccess] returns [false] when its lookup throws, and
    returns [false] whenever no contract row of the pair has status
    active: revoked and pending rows authorize no field. *)
Theorem checkFieldAccess_fail_closed :
  (∀ e cs dw field,
      SmartContractService.checkFieldAccess_on (Throw e) cs dw field = false)
  ∧ (∀ st pw dw field,
      (∀ c, c ∈ smart_contracts st → patient_wallet c = pw → doctor_wallet c = dw →
            status c ≠ active) →
      SmartContractService.checkFieldAccess st pw dw field = false).
Proof.
  split; [done|].
  intros st pw dw field Hnone. apply findByWallets_none_iff in Hnone.
  unfold SmartContractService.checkFieldAccess. by rewrite Hnone.
Qed.

Lemma checkFieldAccess_fail_closed_witness :
  SmartContractService.checkFieldAccess Examples.no_active "0xP" "0xD"
    "vitals.heartRate" = false.
Proof.
  apply (proj2 checkFieldAccess_fail_closed).
  intros c Hin _ _.
  apply list_elem_of_In in Hin. simpl in Hin.
  destruct Hin as [<-|[<-|[]]]; simpl; discriminate.
Defined.

(** ** At most one active contract per pair *)

Lemma single_active_app (rows : list SmartContract) (row : SmartContract) :
  (∀ pw dw, (List.length (List.filter (SmartContractService.selects_active pw dw) rows)
             ≤ 1)%nat) →
  List.find (SmartContractService.selects_active (patient_wallet row) (doctor_wallet row))
    rows = None →
  ∀ pw dw, (List.length (List.filter (SmartContractService.selects_active pw dw)
                           (rows ++ [row])) ≤ 1)%nat.
Proof.
  intros Hone Hnone pw dw. rewrite List.filter_app, length_app. simpl.
  destruct (SmartContractService.selects_active pw dw row) eqn:Hsel; simpl.
  - apply selects_active_inv in Hsel as (<- & <- & _).
    rewrite (find_none_filter _ _ Hnone). simpl. lia.
  - specialize (Hone pw dw). lia.
Qed.

Lemma updateApprovedFields_rows (st : State) (i : nat) (F : list string) :
  smart_contracts (snd (SmartContractService.updateApprovedFields st i F))
    = smart_contracts st
  ∨ smart_contracts (snd (SmartContractService.updateApprovedFields st i F))
    = map (with_fields F i) (smart_contracts st).
Proof.
  unfold SmartContractService.updateApprovedFields.
  destruct (SmartContractService.findById st i); [|by left].
  destruct (present _); [|by left].
  right. by destruct (contracts st !! _).
Qed.

Lemma revokeContract_rows (st : State) (i : nat) :
  smart_contracts (snd (SmartContractService.revokeContract st i))
    = smart_contracts st
  ∨ smart_contracts (snd (SmartContractService.revokeContract st i))
    = map (with_revoked i) (smart_contracts st).
Proof.
  unfold SmartContractService.revokeContract.
  destruct (SmartContractService.findById st i); [|by left].
  destruct (present _); [|by left].
  right. by destruct (contracts st !! _).
Qed.

Lemma createContract_single_active (st : State) (uuid pw dw : string) (F : list string) :
  single_active st →
  SmartContractService.findByWallets st pw dw = None →
  single_active (snd (SmartContractService.createContract st uuid pw dw F)).
Proof.
  intros Hone Hnone.
  destruct (createContract_ok st uuid pw dw F) as (c & st' & -> & _ & _ & _ & _ & Hrows).
  unfold single_active. simpl. rewrite Hrows.
  by apply single_active_app.
Qed.

Lemma updateApprovedFields_single_active (st : State) (i : nat) (F : list string) :
  single_active st →
  single_active (snd (SmartContractService.updateApprovedFields st i F)).
Proof.
  intros Hone pw dw.
  destruct (updateApprovedFields_rows st i F) as [->| ->]; [apply Hone|].
  rewrite filter_map_stable; [apply Hone|].
  intros c. apply with_fields_selects.
Qed.

Lemma revokeContract_single_active (st : State) (i : nat) :
  single_active st →
  single_active (snd (SmartContractService.revokeContract st i)).
Proof.
  intros Hone pw dw.
  destruct (revokeContract_rows st i) as [->| ->]; [apply Hone|].
  etrans; [|apply (Hone pw dw)].
  apply filter_map_le. intros c Hc. by apply with_revoked_selects in Hc as [? _].
Qed.

Lemma handle_single_active (st : State) (req : Routes.Request) :
  single_active st → single_active (snd (Routes.handle st req)).
Proof.
  intros Hone. destruct req as [u did uuid|u pid F|u nid|u nid action uuid|u did]; simpl.
  - (* connect-doctor *)
    unfold Routes.connect_doctor.
    destruct u as [u|]; [|done]. destruct (negb _); [done|].
    destruct (_ =? _)%nat; [done|].
    destruct (PatientModel.findById _ _) as [p|]; [|done].
    destruct (DoctorModel.findById _ _) as [d|]; [|done].
    destruct (SmartContractService.findByWallets _ _ _) eqn:Hfind; [done|].
    pose proof (createContract_single_active st uuid _ _ [] Hone Hfind) as H.
    by destruct (SmartContractService.createContract _ _ _ _ _) as [[?|?] ?].
  - (* request-access *)
    unfold Routes.request_access.
    destruct u as [u|]; [|done]. destruct (negb _); [done|].
    destruct (_ <? _)%nat; [done|]. destruct (_ =? _)%nat; [done|].
    destruct (_ <? _)%nat; [done|].
    destruct (PatientModel.findById _ _) as [p|]; [|done].
    destruct (negb _); [done|].
    destruct (NotificationModel.findPendingByDoctorAndPatient _ _ _); [done|].
    destruct (SmartContractService.findByWallets _ _ _); [|done].
    destruct (negb _); [done|].
    destruct (create_notification_ok st (id u) pid F pending) as [n ->]. done.
  - (* cancel *)
    unfold Routes.cancel_request.
    destruct u as [u|]; [|done]. destruct (negb _); [done|].
    destruct (NotificationModel.findById _ _) as [n|]; [|done].
    destruct (negb _); [done|]. destruct (negb _); done.
  - (* respond *)
    unfold Routes.respond.
    destruct u as [u|]; [|done]. destruct (negb _); [done|].
    destruct (negb _); [done|].
    destruct (NotificationModel.findById _ _) as [n|]; [|done].
    destruct (negb _); [done|].
    set (st1 := snd (NotificationModel.updateStatus _ _ _)).
    assert (Hone1 : single_active st1) by exact Hone.
    destruct (bool_decide (action = "approve")); [|done].
    destruct (PatientModel.findById st1 _) as [p|]; [|done].
    destruct (DoctorModel.findById st1 _) as [d|]; [|done].
    destruct (SmartContractService.findByWallets st1 _ _) as [c|] eqn:Hfind.
    + pose proof (updateApprovedFields_single_active st1 (contract_id c)
                    (requested_fields n) Hone1) as H.
      by destruct (SmartContractService.updateApprovedFields _ _ _) as [[?|?] ?].
    + pose proof (createContract_single_active st1 uuid _ _ (requested_fields n)
                    Hone1 Hfind) as H.
      by destruct (SmartContractService.createContract _ _ _ _ _) as [[?|?] ?].
  - (* revoke-access *)
    unfold Routes.revoke_access.
    destruct u as [u|]; [|done]. destruct (negb _); [done|].
    destruct (PatientModel.findById _ _) as [p|]; [|done].
    destruct (DoctorModel.findById _ _) as [d|]; [|done].
    destruct (SmartContractService.findByWallets _ _ _) as [c|]; [|done].
    pose proof (revokeContract_single_active st (contract_id c) Hone) as H.
    by destruct (SmartContractService.revokeContract _ _) as [[?|?] ?].
Qed.

Lemma serve_single_active (reqs : list Routes.Request) :
  ∀ st, single_active st → single_active (Routes.serve st reqs).
Proof.
  induction reqs as [|req reqs IH]; intros st Hone; [done|].
  simpl. apply IH. by apply handle_single_active.
Qed.

(** C7. In every state reached from a database without contracts by
    serving any sequence of registry requests one after the other, each
    pair of holder and requester wallets has at most one contract row with
    status active. *)
Theorem single_active_grant (ps : list Patient) (ds : list Doctor)
    (reqs : list Routes.Request) :
  single_active (Routes.serve (Routes.initial ps ds) reqs).
Proof.
  apply serve_single_active. intros pw dw. simpl. lia.
Qed.

(** ** Contract rows always carry an address *)

Lemma addressed_app (st : State) (rows : list SmartContract) (row : SmartContract) :
  Forall (fun c => present (contract_address c) = true) rows →
  present (contract_address row) = true →
  Forall (fun c => present (contract_address c) = true) (rows ++ [row]).
Proof. intros Hrows Hrow. apply Forall_app. split; [done|]. by apply Forall_singleton. Qed.

Lemma createContract_addressed (st : State) (uuid pw dw : string) (F : list string) :
  addressed st → addressed (snd (SmartContractService.createContract st uuid pw dw F)).
Proof.
  intros Haddr.
  destruct (createContract_ok st uuid pw dw F) as (c & st' & -> & _ & _ & _ & _ & Hrows).
  unfold addressed. simpl. rewrite Hrows. by apply (addressed_app st).
Qed.

Lemma updateApprovedFields_addressed (st : State) (i : nat) (F : list string) :
  addressed st → addressed (snd (SmartContractService.updateApprovedFields st i F)).
Proof.
  intros Haddr. unfold addressed.
  destruct (updateApprovedFields_rows st i F) as [->| ->]; [done|].
  apply Forall_map. eapply Forall_impl; [exact Haddr|].
  intros c Hc. unfold with_fields. by destruct (_ =? _)%nat.
Qed.

Lemma revokeContract_addressed (st : State) (i : nat) :
  addressed st → addressed (snd (SmartContractService.revokeContract st i)).
Proof.
  intros Haddr. unfold addressed.
  destruct (revokeContract_rows st i) as [->| ->]; [done|].
  apply Forall_map. eapply Forall_impl; [exact Haddr|].
  intros c Hc. unfold with_revoked. by destruct (_ =? _)%nat.
Qed.

Lemma handle_addressed (st : State) (req : Routes.Request) :
  addressed st → addressed (snd (Routes.handle st req)).
Proof.
  intros Haddr. destruct req as [u did uuid|u pid F|u nid|u nid action uuid|u did]; simpl.
  - unfold Routes.connect_doctor.
    destruct u as [u|]; [|done]. destruct (negb _); [done|].
    destruct (_ =? _)%nat; [done|].
    destruct (PatientModel.findById _ _) as [p|]; [|done].
    destruct (DoctorModel.findById _ _) as [d|]; [|done].
    destruct (SmartContractService.findByWallets _ _ _); [done|].
    pose proof (createContract_addressed st uuid (patient_wallet_address p)
                  (doctor_wallet_address d) [] Haddr) as H.
    by destruct (SmartContractService.createContract _ _ _ _ _) as [[?|?] ?].
  - unfold Routes.request_access.
    destruct u as [u|]; [|done]. destruct (negb _); [done|].
    destruct (_ <? _)%nat; [done|]. destruct (_ =? _)%nat; [done|].
    destruct (_ <? _)%nat; [done|].
    destruct (PatientModel.findById _ _) as [p|]; [|done].
    destruct (negb _); [done|].
    destruct (NotificationModel.findPendingByDoctorAndPatient _ _ _); [done|].
    destruct (SmartContractService.findByWallets _ _ _); [|done].
    destruct (negb _); [done|].
    destruct (create_notification_ok st (id u) pid F pending) as [n ->]. done.
  - unfold Routes.cancel_request.
    destruct u as [u|]; [|done]. destruct (negb _); [done|].
    destruct (NotificationModel.findById _ _) as [n|]; [|done].
    destruct (negb _); [done|]. destruct (negb _); done.
  - unfold Routes.respond.
    destruct u as [u|]; [|done]. destruct (negb _); [done|].
    destruct (negb _); [done|].
    destruct (NotificationModel.findById _ _) as [n|]; [|done].
    destruct (negb _); [done|].
    set (st1 := snd (NotificationModel.updateStatus _ _ _)).
    assert (Haddr1 : addressed st1) by exact Haddr.
    destruct (bool_decide (action = "approve")); [|done].
    destruct (PatientModel.findById st1 _) as [p|]; [|done].
    destruct (DoctorModel.findById st1 _) as [d|]; [|done].
    destruct (SmartContractService.findByWallets st1 _ _) as [c|].
    + pose proof (updateApprovedFields_addressed st1 (contract_id c)
                    (requested_fields n) Haddr1) as H.
      by destruct (SmartContractService.updateApprovedFields _ _ _) as [[?|?] ?].
    + pose proof (createContract_addressed st1 uuid (patient_wallet_address p)
                    (doctor_wallet_address d) (requested_fields n) Haddr1) as H.
      by destruct (SmartContractService.createContract _ _ _ _ _) as [[?|?] ?].
  - unfold Routes.revoke_access.
    destruct u as [u|]; [|done]. destruct (negb _); [done|].
    destruct (PatientModel.findById _ _) as [p|]; [|done].
    destruct (DoctorModel.findById _ _) as [d|]; [|done].
    destruct (SmartContractService.findByWallets _ _ _) as [c|]; [|done].
    pose proof (revokeContract_addressed st (contract_id c) Haddr) as H.
    by destruct (SmartContractService.revokeContract _ _) as [[?|?] ?].
Qed.

Lemma serve_addressed (reqs : list Routes.Request) :
  ∀ st, addressed st → addressed (Routes.serve st reqs).
Proof.
  induction reqs as [|req reqs IH]; intros st Haddr; [done|].
  simpl. apply IH. by apply handle_addressed.
Qed.

Lemma reachable_addressed (ps : list Patient) (ds : list Doctor)
    (reqs : list Routes.Request) :
  addressed (Routes.serve (Routes.initial ps ds) reqs).
Proof. apply serve_addressed. constructor. Qed.

(** ** Resolving a request *)

Lemma updateStatus_find (st : State) (i : nat) (s : NotificationStatus) (n : Notification) :
  NotificationModel.findById st i = Some n →
  NotificationModel.findById (snd (NotificationModel.updateStatus st i s)) i
  = Some {| notification_id := notification_id n; n_doctor_id := n_doctor_id n;
            n_patient_id := n_patient_id n; requested_fields := requested_fields n;
            n_status := s |}.
Proof.
  intros Hfind. unfold NotificationModel.findById in *. simpl.
  rewrite find_map_stable.
  - rewrite Hfind. simpl.
    apply List.find_some in Hfind as [_ Hid]. by rewrite Hid.
  - intros x. simpl. destruct (notification_id x =? i)%nat eqn:Hx; simpl; by rewrite ?Hx.
Qed.

Lemma includes_approve : Helpers.includes ["approve"; "deny"] "approve" = true.
Proof. reflexivity. Qed.

Lemma includes_deny : Helpers.includes ["approve"; "deny"] "deny" = true.
Proof. reflexivity. Qed.

(** What the approve branch of the respond handler does when the holder's
    and the requester's rows are found; the status of the notification is
    not looked at. *)
Lemma respond_approve_effect (st : State) (u : User) (nid : nat) (uuid : string)
    (n : Notification) (p : Patient) (d : Doctor) :
  type u = patient →
  NotificationModel.findById st nid = Some n →
  n_patient_id n = id u →
  PatientModel.findById st (id u) = Some p →
  DoctorModel.findById st (n_doctor_id n) = Some d →
  addressed st →
  ∃ st',
    Routes.respond st (Some u) nid "approve" uuid = (Routes.Success, st')
    ∧ status_of st' nid = Some approved
    ∧ SmartContractService.getApprovedFields st'
        (patient_wallet_address p) (doctor_wallet_address d) = requested_fields n.
Proof.
  intros Htype Hfind Hown Hp Hd Haddr.
  unfold Routes.respond.
  rewrite Htype, includes_approve, Hfind, Hown, Nat.eqb_refl. simpl negb. cbv iota.
  change (bool_decide ("approve" = "approve")) with true. cbv iota.
  pose proof (updateStatus_find st nid approved n Hfind) as Hst1.
  set (st1 := snd (NotificationModel.updateStatus st nid approved)) in *.
  change (PatientModel.findById st1 (id u)) with (PatientModel.findById st (id u)).
  change (DoctorModel.findById st1 (n_doctor_id n))
    with (DoctorModel.findById st (n_doctor_id n)).
  rewrite Hp, Hd.
  assert (Haddr1 : addressed st1) by exact Haddr.
  destruct (SmartContractService.findByWallets st1 (patient_wallet_address p)
              (doctor_wallet_address d)) as [c|] eqn:Hc.
  - pose proof Hc as Hc'. apply find_some_in in Hc' as [Hin Hsel].
    destruct (updateApprovedFields_ok st1 c (requested_fields n) Hin Haddr1)
      as (r & st2 & -> & _ & _ & Hn & _ & Hrows).
    exists st2. split; [done|]. split.
    + unfold status_of, NotificationModel.findById in *. by rewrite Hn, Hst1.
    + unfold SmartContractService.getApprovedFields,
        SmartContractService.findByWallets in *.
      rewrite Hrows, find_map_stable, Hc by (intros; apply with_fields_selects).
      simpl. unfold with_fields. by rewrite Nat.eqb_refl.
  - destruct (createContract_ok st1 uuid (patient_wallet_address p)
                (doctor_wallet_address d) (requested_fields n))
      as (c & st2 & -> & _ & _ & Hn & _ & Hrows).
    exists st2. split; [done|]. split.
    + unfold status_of, NotificationModel.findById in *. by rewrite Hn, Hst1.
    + unfold SmartContractService.getApprovedFields,
        SmartContractService.findByWallets in *.
      rewrite Hrows, find_app_none by done.
      unfold SmartContractService.selects_active. simpl.
      by rewrite !bool_decide_eq_true_2.
Qed.

(** C2. Approving a pending request of a holder whose row and whose
    requester's row exist succeeds, and afterwards the approved fields of
    the pair are exactly the requested fields of that request: whatever was
    approved before is overwritten, not merged. *)
Theorem approve_replaces_fields (st : State) (u : User) (nid : nat) (uuid : string)
    (n : Notification) (p : Patient) (d : Doctor) :
  type u = patient →
  NotificationModel.findById st nid = Some n →
  n_patient_id n = id u →
  n_status n = pending →
  PatientModel.findById st (id u) = Some p →
  DoctorModel.findById st (n_doctor_id n) = Some d →
  addressed st →
  ∃ st',
    Routes.respond st (Some u) nid "approve" uuid = (Routes.Success, st')
    ∧ SmartContractService.getApprovedFields st'
        (patient_wallet_address p) (doctor_wallet_address d) = requested_fields n.
Proof.
  intros Htype Hfind Hown _ Hp Hd Haddr.
  destruct (respond_approve_effect st u nid uuid n p d Htype Hfind Hown Hp Hd Haddr)
    as (st' & Hrun & _ & Hfields).
  eauto.
Qed.

Lemma approve_replaces_fields_witness :
  ∃ st',
    Routes.respond Examples.asked (Some Examples.holder) 1 "approve" "u2"
      = (Routes.Success, st')
    ∧ SmartContractService.getApprovedFields st' "0xP" "0xD" = ["vitals.heartRate"].
Proof.
  apply (approve_replaces_fields Examples.asked Examples.holder 1 "u2"
           {| notification_id := 1; n_doctor_id := 1; n_patient_id := 1;
              requested_fields := ["vitals.heartRate"]; n_status := pending |}
           Examples.alice Examples.sara); try reflexivity.
  apply reachable_addressed.
Defined.

(** C5. The respond handler does not look at the status of the request:
    a request the holder has denied is resolved again, to approved, and
    the grant is rewritten. *)
Theorem respond_reresolves_denied_request :
  status_of Examples.refused 1 = Some denied
  ∧ SmartContractService.getApprovedFields Examples.refused "0xP" "0xD" = []
  ∧ fst (Routes.respond Examples.refused (Some Examples.holder) 1 "approve" "u3")
    = Routes.Success
  ∧ status_of
      (snd (Routes.respond Examples.refused (Some Examples.holder) 1 "approve" "u3")) 1
    = Some approved
  ∧ SmartContractService.getApprovedFields
      (snd (Routes.respond Examples.refused (Some Examples.holder) 1 "approve" "u3"))
      "0xP" "0xD"
    = ["vitals.heartRate"].
Proof. repeat split; vm_compute; reflexivity. Qed.

(** ** Rejected requests and partial updates *)






(** ** Contract ids are unique *)

Lemma list_max_ge (l : list nat) (x : nat) : x ∈ l → (x ≤ list_max l)%nat.
Proof.
  intros Hin. apply list_elem_of_In in Hin.
  pose proof (proj1 (List.list_max_le l (list_max l)) (Nat.le_refl _)) as H.
  rewrite List.Forall_forall in H. by apply H.
Qed.

Lemma createContract_unique_ids (st : State) (uuid pw dw : string) (F : list string) :
  unique_ids st → unique_ids (snd (SmartContractService.createContract st uuid pw dw F)).
Proof.
  intros [Hnd Hle].
  unfold SmartContractService.createContract. simpl.
  set (lastID := next_rowid _ _).
  assert (Hfresh : ∀ c, c ∈ smart_contracts st → (contract_id c < lastID)%nat).
  { intros c Hc. unfold lastID, next_rowid.
    assert (contract_id c ≤ list_max (map contract_id (smart_contracts st)))%nat; [|lia].
    apply list_max_ge. apply list_elem_of_fmap. eauto. }
  match goal with |- unique_ids (snd (match ?x with _ => _ end)) =>
    destruct x end; simpl.
  all: split; simpl.
  all: try (rewrite map_app; apply NoDup_app; split; [done|]; split;
            [|apply NoDup_singleton];
            intros x Hx Hx'; apply list_elem_of_singleton in Hx'; subst x;
            apply list_elem_of_fmap in Hx as (c & Hid & Hc);
            apply Hfresh in Hc; simpl in Hid; lia).
  all: apply Forall_app; split;
    [rewrite Forall_forall; intros c Hc; apply Hfresh in Hc; lia
    |apply Forall_singleton; simpl; lia].
Qed.

Lemma updateApprovedFields_unique_ids (st : State) (i : nat) (F : list string) :
  unique_ids st → unique_ids (snd (SmartContractService.updateApprovedFields st i F)).
Proof.
  intros [Hnd Hle]. unfold SmartContractService.updateApprovedFields.
  destruct (SmartContractService.findById st i); [|done].
  destruct (present _); [|done].
  assert (Hmap : ∀ rows, map contract_id (map (with_fields F i) rows)
                         = map contract_id rows).
  { intros rows. rewrite map_map. apply map_ext. intros c.
    unfold with_fields. by destruct (_ =? _)%nat. }
  destruct (contracts st !! _); split; simpl.
  all: try (fold (with_fields F i); by rewrite Hmap).
  all: apply Forall_map; eapply Forall_impl; [exact Hle|];
    intros c Hc; simpl; by destruct (_ =? _)%nat.
Qed.

Lemma revokeContract_unique_ids (st : State) (i : nat) :
  unique_ids st → unique_ids (snd (SmartContractService.revokeContract st i)).
Proof.
  intros [Hnd Hle]. unfold SmartContractService.revokeContract.
  destruct (SmartContractService.findById st i); [|done].
  destruct (present _); [|done].
  assert (Hmap : ∀ rows, map contract_id (map (with_revoked i) rows)
                         = map contract_id rows).
  { intros rows. rewrite map_map. apply map_ext. intros c.
    unfold with_revoked. by destruct (_ =? _)%nat. }
  destruct (contracts st !! _); split; simpl.
  all: try (fold (with_revoked i); by rewrite Hmap).
  all: apply Forall_map; eapply Forall_impl; [exact Hle|];
    intros c Hc; simpl; by destruct (_ =? _)%nat.
Qed.

Lemma handle_unique_ids (st : State) (req : Routes.Request) :
  unique_ids st → unique_ids (snd (Routes.handle st req)).
Proof.
  intros Huniq. destruct req as [u did uuid|u pid F|u nid|u nid action uuid|u did]; simpl.
  - unfold Routes.connect_doctor.
    destruct u as [u|]; [|done]. destruct (negb _); [done|].
    destruct (_ =? _)%nat; [done|].
    destruct (PatientModel.findById _ _) as [p|]; [|done].
    destruct (DoctorModel.findById _ _) as [d|]; [|done].
    destruct (SmartContractService.findByWallets _ _ _); [done|].
    pose proof (createContract_unique_ids st uuid (patient_wallet_address p)
                  (doctor_wallet_address d) [] Huniq) as H.
    by destruct (SmartContractService.createContract _ _ _ _ _) as [[?|?] ?].
  - unfold Routes.request_access.
    destruct u as [u|]; [|done]. destruct (negb _); [done|].
    destruct (_ <? _)%nat; [done|]. destruct (_ =? _)%nat; [done|].
    destruct (_ <? _)%nat; [done|].
    destruct (PatientModel.findById _ _) as [p|]; [|done].
    destruct (negb _); [done|].
    destruct (NotificationModel.findPendingByDoctorAndPatient _ _ _); [done|].
    destruct (SmartContractService.findByWallets _ _ _); [|done].
    destruct (negb _); [done|].
    destruct (create_notification_ok st (id u) pid F pending) as [n ->]. done.
  - unfold Routes.cancel_request.
    destruct u as [u|]; [|done]. destruct (negb _); [done|].
    destruct (NotificationModel.findById _ _) as [n|]; [|done].
    destruct (negb _); [done|]. destruct (negb _); done.
  - unfold Routes.respond.
    destruct u as [u|]; [|done]. destruct (negb _); [done|].
    destruct (negb _); [done|].
    destruct (NotificationModel.findById _ _) as [n|]; [|done].
    destruct (negb _); [done|].
    set (st1 := snd (NotificationModel.updateStatus _ _ _)).
    assert (Huniq1 : unique_ids st1) by exact Huniq.
    destruct (bool_decide (action = "approve")); [|done].
    destruct (PatientModel.findById st1 _) as [p|]; [|done].
    destruct (DoctorModel.findById st1 _) as [d|]; [|done].
    destruct (SmartContractService.findByWallets st1 _ _) as [c|].
    + pose proof (updateApprovedFields_unique_ids st1 (contract_id c)
                    (requested_fields n) Huniq1) as H.
      by destruct (SmartContractService.updateApprovedFields _ _ _) as [[?|?] ?].
    + pose proof (createContract_unique_ids st1 uuid (patient_wallet_address p)
                    (doctor_wallet_address d) (requested_fields n) Huniq1) as H.
      by destruct (SmartContractService.createContract _ _ _ _ _) as [[?|?] ?].
  - unfold Routes.revoke_access.
    destruct u as [u|]; [|done]. destruct (negb _); [done|].
    destruct (PatientModel.findById _ _) as [p|]; [|done].
    destruct (DoctorModel.findById _ _) as [d|]; [|done].
    destruct (SmartContractService.findByWallets _ _ _) as [c|]; [|done].
    pose proof (revokeContract_unique_ids st (contract_id c) Huniq) as H.
    by destruct (SmartContractService.revokeContract _ _) as [[?|?] ?].
Qed.

Lemma serve_unique_ids (reqs : list Routes.Request) :
  ∀ st, unique_ids st → unique_ids (Routes.serve st reqs).
Proof.
  induction reqs as [|req reqs IH]; intros st Huniq; [done|].
  simpl. apply IH. by apply handle_unique_ids.
Qed.

Lemma reachable_unique_ids (ps : list Patient) (ds : list Doctor)
    (reqs : list Routes.Request) :
  unique_ids (Routes.serve (Routes.initial ps ds) reqs).
Proof. apply serve_unique_ids. split; constructor. Qed.

Lemma findById_unique (st : State) (c : SmartContract) :
  unique_ids st → c ∈ smart_contracts st →
  SmartContractService.findById st (contract_id c) = Some c.
Proof.
  intros [Hnd _] Hin. unfold SmartContractService.findById.
  induction (smart_contracts st) as [|x rows IH]; [by apply elem_of_nil in Hin|].
  simpl in *. apply NoDup_cons in Hnd as [Hx Hnd].
  destruct (contract_id x =? contract_id c)%nat eqn:Hid.
  - apply Nat.eqb_eq in Hid. apply elem_of_cons in Hin as [->|Hin]; [done|].
    exfalso. apply Hx. rewrite Hid. apply list_elem_of_fmap. eauto.
  - apply elem_of_cons in Hin as [->|Hin]; [by rewrite Nat.eqb_refl in Hid|].
    by apply IH.
Qed.

(** ** Requesting access *)

Lemma validateMedicalFields_fold (F valid invalid : list string) :
  fold_left
    (fun (acc : list string * list string) (field : string) =>
       let '(valid, invalid) := acc in
       if Helpers.includes Helpers.getAvailableMedicalFields field
       then (valid ++ [field], invalid)
       else (valid, invalid ++ [field]))
    F (valid, invalid)
  = (valid ++ List.filter (Helpers.includes Helpers.getAvailableMedicalFields) F,
     invalid ++ List.filter
                  (fun f => negb (Helpers.includes Helpers.getAvailableMedicalFields f)) F).
Proof.
  revert valid invalid. induction F as [|f F IH]; intros valid invalid; simpl.
  - by rewrite !app_nil_r.
  - destruct (Helpers.includes _ f); simpl; rewrite IH; by rewrite <- app_assoc.
Qed.

Lemma validateMedicalFields_spec (F : list string) :
  Helpers.validateMedicalFields F
  = (List.filter (Helpers.includes Helpers.getAvailableMedicalFields) F,
     List.filter (fun f => negb (Helpers.includes Helpers.getAvailableMedicalFields f)) F).
Proof. unfold Helpers.validateMedicalFields. by rewrite validateMedicalFields_fold. Qed.

Lemma invalid_check_false (F : list string) :
  (∀ f, f ∈ F → f ∈ Helpers.getAvailableMedicalFields) →
  (0 <? List.length (snd (Helpers.validateMedicalFields F)))%nat = false.
Proof.
  intros Hall. rewrite validateMedicalFields_spec. simpl.
  induction F as [|f F IH]; [done|]. simpl.
  unfold Helpers.includes at 1.
  rewrite bool_decide_eq_true_2 by (apply Hall; left). simpl.
  apply IH. intros g Hg. apply Hall. by right.
Qed.

Lemma invalid_check_true (F : list string) (f : string) :
  f ∈ F → f ∉ Helpers.getAvailableMedicalFields →
  (0 <? List.length (snd (Helpers.validateMedicalFields F)))%nat = true.
Proof.
  intros Hin Hnot. rewrite validateMedicalFields_spec. simpl.
  apply Nat.ltb_lt.
  assert (Hf : In f (List.filter
                       (fun f => negb (Helpers.includes Helpers.getAvailableMedicalFields f))
                       F)).
  { apply List.filter_In. split; [by apply list_elem_of_In|].
    unfold Helpers.includes. by rewrite bool_decide_eq_false_2. }
  destruct (List.filter _ F); [destruct Hf|simpl; lia].
Qed.

Lemma required_check (pid : nat) (F : list string) :
  pid ≠ 0%nat →
  (0 <? List.length (Helpers.validateRequiredFields pid F))%nat = false.
Proof.
  intros Hpid. unfold Helpers.validateRequiredFields.
  apply Nat.eqb_neq in Hpid. by rewrite Hpid.
Qed.

Lemma nonempty_check (F : list string) :
  F ≠ [] → (List.length F =? 0)%nat = false.
Proof. by destruct F. Qed.

(** The checks of the request-access handler up to the lookup of the
    connection, on a request that passes them. *)
Lemma request_access_reaches_connection (st : State) (du : User) (pid : nat)
    (F : list string) (p : Patient) :
  type du = doctor → pid ≠ 0%nat → F ≠ [] →
  (∀ f, f ∈ F → f ∈ Helpers.getAvailableMedicalFields) →
  PatientModel.findById st pid = Some p →
  present (medical_record_cid p) = true →
  NotificationModel.findPendingByDoctorAndPatient st (id du) pid = None →
  Routes.request_access st (Some du) pid F =
    match SmartContractService.findByWallets st
            (patient_wallet_address p) (wallet_address du) with
    | None => (Routes.Failure Routes.NoActiveConnection, st)
    | Some _ =>
        match NotificationModel.create st (id du) pid F pending with
        | (Ok _, st') => (Routes.Success, st')
        | (Throw _, st') => (Routes.Failure Routes.InternalError, st')
        end
    end.
Proof.
  intros Htype Hpid HF Hcat Hp Hcid Hpend.
  unfold Routes.request_access.
  rewrite Htype, (required_check pid F Hpid), (nonempty_check F HF),
    (invalid_check_false F Hcat), Hp, Hcid, Hpend. simpl.
  destruct (SmartContractService.findByWallets _ _ _) as [c|] eqn:Hc; [|done].
  apply find_some_in in Hc as [_ Hsel].
  apply selects_active_inv in Hsel as (_ & _ & ->). done.
Qed.

(** Without an active contract for the pair no access request goes
    through, whatever else the request holds. *)
Lemma request_access_fails_unconnected (st : State) (du : User) (pid : nat)
    (F : list string) :
  (∀ p, PatientModel.findById st pid = Some p →
        SmartContractService.findByWallets st
          (patient_wallet_address p) (wallet_address du) = None) →
  ∃ e, Routes.request_access st (Some du) pid F = (Routes.Failure e, st).
Proof.
  intros Hnone. unfold Routes.request_access.
  destruct (negb _); [eauto|].
  destruct (_ <? _)%nat; [eauto|]. destruct (_ =? _)%nat; [eauto|].
  destruct (_ <? _)%nat; [eauto|].
  destruct (PatientModel.findById _ _) as [p|] eqn:Hp; [|eauto].
  destruct (negb _); [eauto|].
  destruct (NotificationModel.findPendingByDoctorAndPatient _ _ _); [eauto|].
  rewrite (Hnone p eq_refl). eauto.
Qed.

(** C4, as the claim states it, fails: with a request pending for the
    pair an empty field list is answered with the empty-field-set error,
    not the duplicate-request one; and with no active grant but a request
    still pending, a well-formed request is answered with the
    duplicate-request error, not the no-connection one. *)
Lemma duplicate_not_regardless_of_fields :
  is_Some (NotificationModel.findPendingByDoctorAndPatient Examples.asked 1 1)
  ∧ Routes.request_access Examples.asked (Some Examples.requester) 1 []
    = (Routes.Failure Routes.EmptyFieldSet, Examples.asked)
  ∧ SmartContractService.findByWallets Examples.revoked_while_asked "0xP" "0xD" = None
  ∧ Routes.request_access Examples.revoked_while_asked (Some Examples.requester) 1
      ["patientInfo.bloodType"]
    = (Routes.Failure Routes.DuplicateRequest, Examples.revoked_while_asked).
Proof.
  split; [by eexists|].
  repeat split; vm_compute; reflexivity.
Qed.

(** C4, amended. The handler checks in a fixed order and reports the first
    failure: an empty field list; then a field outside the catalog; then,
    for a patient who exists and has a record, a request already pending
    for the pair; then the absence of an active contract.  A request that
    passes all checks adds exactly one notification, pending, holding the
    requested fields, and changes nothing else. *)
Theorem request_access_error_order (st : State) (du : User) (pid : nat)
    (F : list string) :
  type du = doctor → pid ≠ 0%nat →
  (F = [] →
     Routes.request_access st (Some du) pid F
     = (Routes.Failure Routes.EmptyFieldSet, st))
  ∧ (F ≠ [] → (∃ f, f ∈ F ∧ f ∉ Helpers.getAvailableMedicalFields) →
     Routes.request_access st (Some du) pid F
     = (Routes.Failure Routes.UnknownField, st))
  ∧ (∀ p, F ≠ [] → (∀ f, f ∈ F → f ∈ Helpers.getAvailableMedicalFields) →
     PatientModel.findById st pid = Some p →
     present (medical_record_cid p) = true →
     (is_Some (NotificationModel.findPendingByDoctorAndPatient st (id du) pid) →
        Routes.request_access st (Some du) pid F
        = (Routes.Failure Routes.DuplicateRequest, st))
     ∧ (NotificationModel.findPendingByDoctorAndPatient st (id du) pid = None →
        SmartContractService.findByWallets st
          (patient_wallet_address p) (wallet_address du) = None →
        Routes.request_access st (Some du) pid F
        = (Routes.Failure Routes.NoActiveConnection, st))
     ∧ (NotificationModel.findPendingByDoctorAndPatient st (id du) pid = None →
        is_Some (SmartContractService.findByWallets st
                   (patient_wallet_address p) (wallet_address du)) →
        ∃ n st',
          Routes.request_access st (Some du) pid F = (Routes.Success, st')
          ∧ notifications st' = notifications st ++ [n]
          ∧ n_status n = pending ∧ requested_fields n = F
          ∧ n_doctor_id n = id du ∧ n_patient_id n = pid
          ∧ smart_contracts st' = smart_contracts st
          ∧ contracts st' = contracts st)).
Proof.
  intros Htype Hpid. split; [|split].
  - intros ->. unfold Routes.request_access.
    by rewrite Htype, (required_check pid [] Hpid).
  - intros HF (f & Hin & Hnot). unfold Routes.request_access.
    by rewrite Htype, (required_check pid F Hpid), (nonempty_check F HF),
      (invalid_check_true F f Hin Hnot).
  - intros p HF Hcat Hp Hcid. split; [|split].
    + intros [n Hn]. unfold Routes.request_access.
      by rewrite Htype, (required_check pid F Hpid), (nonempty_check F HF),
        (invalid_check_false F Hcat), Hp, Hcid, Hn.
    + intros Hpend Hnone.
      by rewrite (request_access_reaches_connection st du pid F p), Hnone.
    + intros Hpend [c Hc].
      rewrite (request_access_reaches_connection st du pid F p), Hc by done.
      destruct (create_notification_ok st (id du) pid F pending) as [n ->].
      eexists _, _. split; [reflexivity|]. simpl. done.
Qed.

Lemma request_access_error_order_witness :
  Routes.request_access Examples.connected (Some Examples.requester) 1 []
    = (Routes.Failure Routes.EmptyFieldSet, Examples.connected)
  ∧ Routes.request_access Examples.asked (Some Examples.requester) 1 ["vitals.weight"]
    = (Routes.Failure Routes.DuplicateRequest, Examples.asked)
  ∧ Routes.request_access Examples.start (Some Examples.requester) 1 ["vitals.weight"]
    = (Routes.Failure Routes.NoActiveConnection, Examples.start)
  ∧ ∃ n st',
      Routes.request_access Examples.connected (Some Examples.requester) 1
        ["vitals.weight"] = (Routes.Success, st')
      ∧ notifications st' = notifications Examples.connected ++ [n]
      ∧ n_status n = pending ∧ requested_fields n = ["vitals.weight"]
      ∧ n_doctor_id n = 1%nat ∧ n_patient_id n = 1%nat
      ∧ smart_contracts st' = smart_contracts Examples.connected
      ∧ contracts st' = contracts Examples.connected.
Proof.
  assert (Hcat : ∀ f, f ∈ ["vitals.weight"] → f ∈ Helpers.getAvailableMedicalFields).
  { intros f Hf. apply list_elem_of_singleton in Hf as ->.
    apply list_elem_of_In. simpl. tauto. }
  split; [|split; [|split]].
  - apply (request_access_error_order Examples.connected Examples.requester 1 []);
      [reflexivity|discriminate|reflexivity].
  - apply (request_access_error_order Examples.asked Examples.requester 1
             ["vitals.weight"] eq_refl ltac:(discriminate)) with (p := Examples.alice);
      [discriminate|exact Hcat|reflexivity|reflexivity|by eexists].
  - apply (request_access_error_order Examples.start Examples.requester 1
             ["vitals.weight"] eq_refl ltac:(discriminate)) with (p := Examples.alice);
      [discriminate|exact Hcat|reflexivity|reflexivity|reflexivity|reflexivity].
  - apply (request_access_error_order Examples.connected Examples.requester 1
             ["vitals.weight"] eq_refl ltac:(discriminate)) with (p := Examples.alice);
      [discriminate|exact Hcat|reflexivity|reflexivity|reflexivity|by eexists].
Defined.

(** ** Revoking access *)

Lemma revoke_leaves_no_active (st : State) (pw dw : string) (c : SmartContract) :
  single_active st →
  SmartContractService.findByWallets st pw dw = Some c →
  List.find (SmartContractService.selects_active pw dw)
    (map (with_revoked (contract_id c)) (smart_contracts st)) = None.
Proof.
  intros Hone Hc. apply find_some_in in Hc as [Hin Hsel].
  destruct (List.find _ _) as [r'|] eqn:Hfind; [|done]. exfalso.
  apply find_some_in in Hfind as [Hin' Hsel'].
  apply list_elem_of_fmap in Hin' as (r & -> & Hr).
  apply with_revoked_selects in Hsel' as [Hselr Hne].
  apply Hne. f_equal.
  exact (filter_single _ _ r c (Hone pw dw) Hr Hselr Hin Hsel).
Qed.

(** C3, as the claim states it, fails: the holder revokes while a request
    of the doctor is still pending; the doctor's next well-formed request
    is answered with the duplicate-request error, not with the
    no-connection one. *)
Lemma request_after_revoke_reports_duplicate :
  fst (Routes.revoke_access Examples.asked (Some Examples.holder) 1) = Routes.Success
  ∧ snd (Routes.revoke_access Examples.asked (Some Examples.holder) 1)
    = Examples.revoked_while_asked
  ∧ Routes.request_access Examples.revoked_while_asked (Some Examples.requester) 1
      ["patientInfo.bloodType"]
    = (Routes.Failure Routes.DuplicateRequest, Examples.revoked_while_asked).
Proof. repeat split; vm_compute; reflexivity. Qed.

(** C3, amended. Revoking an existing active grant succeeds; the contract
    row gets status revoked and the in-memory contract, if there is one,
    is deactivated with no approved field; afterwards the approved fields
    of the pair are empty, no access request of the requester for this
    holder succeeds, and a request that passes the handler's earlier
    checks (well-formed fields, record uploaded, nothing pending) fails
    with the no-connection error. *)
Theorem revoke_postcondition (st : State) (u : User) (did : nat)
    (p : Patient) (d : Doctor) (c : SmartContract) :
  type u = patient →
  PatientModel.findById st (id u) = Some p →
  DoctorModel.findById st did = Some d →
  SmartContractService.findByWallets st
    (patient_wallet_address p) (doctor_wallet_address d) = Some c →
  single_active st → addressed st → unique_ids st →
  ∃ st',
    Routes.revoke_access st (Some u) did = (Routes.Success, st')
    ∧ (∃ c', SmartContractService.findById st' (contract_id c) = Some c'
             ∧ status c' = revoked)
    ∧ (∀ a mc, contract_address c = Some a → contracts st !! a = Some mc →
         ∃ mc', contracts st' !! a = Some mc'
                ∧ approvedFields mc' = [] ∧ isActive mc' = false)
    ∧ SmartContractService.getApprovedFields st'
        (patient_wallet_address p) (doctor_wallet_address d) = []
    ∧ (∀ du F, wallet_address du = doctor_wallet_address d →
         ∃ e, Routes.request_access st' (Some du) (id u) F = (Routes.Failure e, st'))
    ∧ (∀ du F, type du = doctor → wallet_address du = doctor_wallet_address d →
         id u ≠ 0%nat → F ≠ [] →
         (∀ f, f ∈ F → f ∈ Helpers.getAvailableMedicalFields) →
         present (medical_record_cid p) = true →
         NotificationModel.findPendingByDoctorAndPatient st' (id du) (id u) = None →
         Routes.request_access st' (Some du) (id u) F
         = (Routes.Failure Routes.NoActiveConnection, st')).
Proof.
  intros Htype Hp Hd Hc Hone Haddr Huniq.
  pose proof Hc as Hc'. apply find_some_in in Hc' as [Hin Hsel].
  pose proof (findById_unique st c Huniq Hin) as Hbyid.
  assert (Hpresent : present (contract_address c) = true).
  { unfold addressed in Haddr. rewrite Forall_forall in Haddr. by apply Haddr. }
  unfold Routes.revoke_access. rewrite Htype, Hp, Hd, Hc. simpl negb. cbv iota.
  unfold SmartContractService.revokeContract. rewrite Hbyid, Hpresent.
  set (st1 := match contracts st !! default "" (contract_address c) with
              | Some _ => _ | None => st end).
  assert (Hrows1 : smart_contracts st1 = smart_contracts st).
  { subst st1. by destruct (contracts st !! _). }
  assert (Hpat1 : patients st1 = patients st).
  { subst st1. by destruct (contracts st !! _). }
  eexists. split; [reflexivity|].
  assert (Hnone : SmartContractService.findByWallets
                    (set_smart_contracts st1
                       (map (with_revoked (contract_id c)) (smart_contracts st1))
                       (smart_contracts_seq st1))
                    (patient_wallet_address p) (doctor_wallet_address d) = None).
  { unfold SmartContractService.findByWallets. simpl. rewrite Hrows1.
    by apply revoke_leaves_no_active. }
  assert (Hpfind : PatientModel.findById
                     (set_smart_contracts st1
                        (map (with_revoked (contract_id c)) (smart_contracts st1))
                        (smart_contracts_seq st1)) (id u) = Some p).
  { unfold PatientModel.findById in *. simpl. by rewrite Hpat1. }
  split; [|split; [|split; [|split]]].
  - unfold SmartContractService.findById in *. simpl. rewrite Hrows1.
    fold (with_revoked (contract_id c)). rewrite find_map_stable.
    + rewrite Hbyid. simpl. eexists. split; [reflexivity|].
      unfold with_revoked. by rewrite Nat.eqb_refl.
    + intros x. simpl. unfold with_revoked.
      destruct (contract_id x =? contract_id c)%nat eqn:Hx; simpl; by rewrite ?Hx.
  - intros a mc Ha Hmc. simpl. subst st1. rewrite Ha in *. simpl in *.
    rewrite Hmc. simpl. rewrite lookup_insert_eq. eauto.
  - unfold SmartContractService.getApprovedFields. fold (with_revoked (contract_id c)).
    by rewrite Hnone.
  - intros du F Hw. fold (with_revoked (contract_id c)).
    apply request_access_fails_unconnected.
    intros p' Hp'. rewrite Hpfind in Hp'. injection Hp' as <-. by rewrite Hw.
  - intros du F Hdoc Hw Hid HF Hcat Hcid Hpend. fold (with_revoked (contract_id c)) in *.
    rewrite (request_access_reaches_connection _ du (id u) F p) by done.
    by rewrite Hw, Hnone.
Qed.

Lemma revoke_postcondition_witness :
  ∃ st',
    Routes.revoke_access Examples.granted (Some Examples.holder) 1
      = (Routes.Success, st')
    ∧ SmartContractService.getApprovedFields st' "0xP" "0xD" = []
    ∧ Routes.request_access st' (Some Examples.requester) 1 ["vitals.weight"]
      = (Routes.Failure Routes.NoActiveConnection, st').
Proof.
  assert (Hone : single_active Examples.granted).
  { do 3 apply serve_single_active. intros pw dw. simpl. lia. }
  assert (Haddr : addressed Examples.granted).
  { do 3 apply serve_addressed. constructor. }
  assert (Huniq : unique_ids Examples.granted).
  { do 3 apply serve_unique_ids. split; constructor. }
  destruct (revoke_postcondition Examples.granted Examples.holder 1
              Examples.alice Examples.sara
              {| contract_id := 1; patient_wallet := "0xP"; doctor_wallet := "0xD";
                 contract_address := Some "contract_u1";
                 approved_fields := ["vitals.heartRate"]; status := active |}
              eq_refl eq_refl eq_refl eq_refl Hone Haddr Huniq)
    as (st' & Hrun & _ & _ & Hfields & _ & Hreq).
  exists st'. split; [exact Hrun|]. split; [exact Hfields|].
  apply Hreq; try reflexivity; try discriminate.
  - intros f Hf. apply list_elem_of_singleton in Hf as ->.
    apply list_elem_of_In. simpl. tauto.
  - injection Hrun as <-. reflexivity.
Defined.

(** ** Handlers as sequences of writes *)

Lemma invalid_check_inv (F : list string) :
  (0 <? List.length (snd (Helpers.validateMedicalFields F)))%nat = false →
  F ⊆ Helpers.getAvailableMedicalFields.
Proof.
  intros Hchk f Hf.
  destruct (decide (f ∈ Helpers.getAvailableMedicalFields)) as [|Hnot]; [done|].
  by rewrite (invalid_check_true F f Hf Hnot) in Hchk.
Qed.

Lemma handle_transitions (st : State) (req : Routes.Request) :
  rtc transition st (snd (Routes.handle st req)).
Proof.
  destruct req as [u did uuid|u pid F|u nid|u nid action uuid|u did]; simpl.
  - unfold Routes.connect_doctor.
    destruct u as [u|]; [|done]. destruct (negb _); [done|].
    destruct (_ =? _)%nat; [done|].
    destruct (PatientModel.findById _ _) as [p|]; [|done].
    destruct (DoctorModel.findById _ _) as [d|]; [|done].
    destruct (SmartContractService.findByWallets _ _ _) eqn:Hfind; [done|].
    pose proof (t_create st uuid _ _ [] Hfind (or_introl eq_refl)) as H.
    destruct (SmartContractService.createContract _ _ _ _ _) as [[?|?] ?];
      by apply rtc_once.
  - unfold Routes.request_access.
    destruct u as [u|]; [|done]. destruct (negb _); [done|].
    destruct (_ <? _)%nat; [done|]. destruct (_ =? _)%nat; [done|].
    destruct (_ <? _)%nat eqn:Hchk; [done|].
    destruct (PatientModel.findById _ _) as [p|]; [|done].
    destruct (negb _); [done|].
    destruct (NotificationModel.findPendingByDoctorAndPatient _ _ _) eqn:Hpend; [done|].
    destruct (SmartContractService.findByWallets _ _ _); [|done].
    destruct (negb _); [done|].
    pose proof (t_request st (id u) pid F (invalid_check_inv F Hchk) Hpend) as H.
    destruct (NotificationModel.create _ _ _ _ _) as [[?|?] ?]; by apply rtc_once.
  - unfold Routes.cancel_request.
    destruct u as [u|]; [|done]. destruct (negb _); [done|].
    destruct (NotificationModel.findById _ _) as [n|]; [|done].
    destruct (negb _); [done|]. destruct (negb _); [done|].
    apply rtc_once, t_cancel.
  - unfold Routes.respond.
    destruct u as [u|]; [|done]. destruct (negb _); [done|].
    destruct (negb _); [done|].
    destruct (NotificationModel.findById _ _) as [n|] eqn:Hn; [|done].
    destruct (negb _); [done|].
    set (s := if bool_decide (action = "approve") then approved else denied).
    assert (Hs : s ≠ pending) by (subst s; by destruct (bool_decide _)).
    pose proof (t_resolve st nid s Hs) as H1.
    pose proof (updateStatus_find st nid s n Hn) as Hn1.
    set (st1 := snd (NotificationModel.updateStatus st nid s)) in *.
    destruct (bool_decide (action = "approve")); [|by apply rtc_once].
    destruct (PatientModel.findById st1 _) as [p|]; [|by apply rtc_once].
    destruct (DoctorModel.findById st1 _) as [d|]; [|by apply rtc_once].
    apply find_some_in in Hn1 as [Hin1 _].
    destruct (SmartContractService.findByWallets st1 _ _) as [c|] eqn:Hfind.
    + pose proof (t_update st1 (contract_id c) _ Hin1) as H2. simpl in H2.
      destruct (SmartContractService.updateApprovedFields _ _ _) as [[?|?] ?];
        eapply rtc_l; eauto using rtc_once.
    + pose proof (t_create st1 uuid _ _ (requested_fields n) Hfind) as H2.
      destruct (SmartContractService.createContract _ _ _ _ _) as [[?|?] ?];
        (eapply rtc_l; [exact H1|]; apply rtc_once, H2; right; eexists; split;
         [exact Hin1|reflexivity]).
  - unfold Routes.revoke_access.
    destruct u as [u|]; [|done]. destruct (negb _); [done|].
    destruct (PatientModel.findById _ _) as [p|]; [|done].
    destruct (DoctorModel.findById _ _) as [d|]; [|done].
    destruct (SmartContractService.findByWallets _ _ _) as [c|]; [|done].
    pose proof (t_revoke st (contract_id c)) as H.
    destruct (SmartContractService.revokeContract _ _) as [[?|?] ?]; by apply rtc_once.
Qed.

Lemma serve_invariant (I : State → Prop) :
  (∀ st st', transition st st' → I st → I st') →
  ∀ reqs st, I st → I (Routes.serve st reqs).
Proof.
  intros Hstep reqs. induction reqs as [|req reqs IH]; intros st HI; [done|].
  simpl. apply IH.
  pose proof (handle_transitions st req) as Hrtc.
  induction Hrtc; eauto.
Qed.

Lemma updateApprovedFields_notifications (st : State) (i : nat) (F : list string) :
  notifications (snd (SmartContractService.updateApprovedFields st i F))
  = notifications st.
Proof.
  unfold SmartContractService.updateApprovedFields.
  destruct (SmartContractService.findById st i); [|done].
  destruct (present _); [|done]. by destruct (contracts st !! _).
Qed.

Lemma revokeContract_notifications (st : State) (i : nat) :
  notifications (snd (SmartContractService.revokeContract st i)) = notifications st.
Proof.
  unfold SmartContractService.revokeContract.
  destruct (SmartContractService.findById st i); [|done].
  destruct (present _); [|done]. by destruct (contracts st !! _).
Qed.

Lemma createContract_notifications (st : State) (uuid pw dw : string) (F : list string) :
  notifications (snd (SmartContractService.createContract st uuid pw dw F))
  = notifications st.
Proof.
  destruct (createContract_ok st uuid pw dw F) as (c & st' & -> & _ & _ & Hn & _).
  exact Hn.
Qed.

Lemma create_notification_rows (st : State) (d p : nat) (F : list string)
    (s : NotificationStatus) :
  ∃ n, notifications (snd (NotificationModel.create st d p F s)) = notifications st ++ [n]
       ∧ n_doctor_id n = d ∧ n_patient_id n = p
       ∧ requested_fields n = F ∧ n_status n = s
       ∧ smart_contracts (snd (NotificationModel.create st d p F s)) = smart_contracts st.
Proof.
  destruct (create_notification_ok st d p F s) as [n ->]. simpl. eauto 10.
Qed.

(** ** One pending request per pair *)

Lemma filter_filter_le {A : Type} (sel keep : A → bool) (rows : list A) :
  (List.length (List.filter sel (List.filter keep rows))
   ≤ List.length (List.filter sel rows))%nat.
Proof.
  induction rows as [|x rows IH]; [done|]. simpl.
  destruct (keep x); simpl; destruct (sel x); simpl; lia.
Qed.

Lemma transition_single_pending (st st' : State) :
  transition st st' → single_pending st → single_pending st'.
Proof.
  intros Hstep Hone d p. destruct Hstep as [d0 p0 F HF Hpend|i|i s Hs|i n Hn|uuid pw dw F Hc HF|i].
  - destruct (create_notification_rows st d0 p0 F pending)
      as (n & -> & Hd & Hp & _ & Hs & _).
    rewrite List.filter_app, length_app. simpl.
    rewrite Hd, Hp, Hs. clear Hd Hp Hs.
    destruct ((d0 =? d)%nat && (p0 =? p)%nat && bool_decide (pending = pending)) eqn:Hsel;
      simpl; [|specialize (Hone d p); lia].
    apply andb_true_iff in Hsel as [Hsel _]. apply andb_true_iff in Hsel as [Hd' Hp'].
    apply Nat.eqb_eq in Hd', Hp'. subst d0 p0.
    unfold NotificationModel.findPendingByDoctorAndPatient in Hpend.
    rewrite (find_none_filter _ _ Hpend). simpl. lia.
  - simpl. etrans; [apply filter_filter_le|apply Hone].
  - simpl. etrans; [|apply (Hone d p)]. apply filter_map_le.
    intros x. destruct (notification_id x =? i)%nat; [|done]. simpl.
    rewrite bool_decide_eq_false_2 by done. by rewrite andb_false_r.
  - rewrite updateApprovedFields_notifications. apply Hone.
  - rewrite createContract_notifications. apply Hone.
  - rewrite revokeContract_notifications. apply Hone.
Qed.

(** X2. In every state reached from a database without notifications by
    serving registry requests one after the other, a doctor has at most
    one pending request per patient. *)
Theorem single_pending_request (ps : list Patient) (ds : list Doctor)
    (reqs : list Routes.Request) :
  single_pending (Routes.serve (Routes.initial ps ds) reqs).
Proof.
  apply (serve_invariant single_pending transition_single_pending).
  intros d p. simpl. lia.
Qed.

(** ** Fields come from the catalog *)

Lemma transition_catalog_fields (st st' : State) :
  transition st st' → catalog_fields st → catalog_fields st'.
Proof.
  intros Hstep [Hn Hc].
  destruct Hstep as [d0 p0 F HF Hpend|i|i s Hs|i n Hin|uuid pw dw F Hnone HF|i].
  - destruct (create_notification_rows st d0 p0 F pending)
      as (n & Hrows & _ & _ & HFn & _ & Hsc).
    split; [rewrite Hrows|by rewrite Hsc].
    apply Forall_app. split; [done|]. apply Forall_singleton. by rewrite HFn.
  - split; [|done]. simpl. rewrite Forall_forall in Hn |- *.
    intros n Hin. apply Hn. apply list_elem_of_In in Hin.
    apply List.filter_In in Hin as [Hin _]. by apply list_elem_of_In.
  - split; [|done]. simpl. apply Forall_map. eapply Forall_impl; [exact Hn|].
    intros n HnF. simpl. by destruct (_ =? _)%nat.
  - split; [by rewrite updateApprovedFields_notifications|].
    destruct (updateApprovedFields_rows st i (requested_fields n)) as [->| ->]; [done|].
    apply Forall_map. eapply Forall_impl; [exact Hc|].
    intros c HcF. unfold with_fields. destruct (_ =? _)%nat; [|done]. simpl.
    rewrite Forall_forall in Hn. by apply Hn.
  - split; [by rewrite createContract_notifications|].
    destruct (createContract_ok st uuid pw dw F) as (c & st2 & -> & _ & _ & _ & _ & Hr).
    simpl. rewrite Hr. apply Forall_app. split; [done|]. apply Forall_singleton. simpl.
    destruct HF as [->|(n & Hin & ->)]; [by intros f Hf; apply elem_of_nil in Hf|].
    rewrite Forall_forall in Hn. by apply Hn.
  - split; [by rewrite revokeContract_notifications|].
    destruct (revokeContract_rows st i) as [->| ->]; [done|].
    apply Forall_map. eapply Forall_impl; [exact Hc|].
    intros c HcF. unfold with_revoked. by destruct (_ =? _)%nat.
Qed.

Lemma reachable_catalog_fields (ps : list Patient) (ds : list Doctor)
    (reqs : list Routes.Request) :
  catalog_fields (Routes.serve (Routes.initial ps ds) reqs).
Proof.
  apply (serve_invariant catalog_fields transition_catalog_fields).
  split; constructor.
Qed.

(** X3. In every state reached from an empty registry, the requested fields
    of every notification and the approved fields of every contract row
    are paths of the field catalog. *)
Theorem fields_from_catalog (ps : list Patient) (ds : list Doctor)
    (reqs : list Routes.Request) :
  catalog_fields (Routes.serve (Routes.initial ps ds) reqs).
Proof. apply reachable_catalog_fields. Qed.

(** ** Revoked rows stay revoked *)

Lemma keeps_revoked_refl (st : State) : keeps_revoked st st.
Proof. intros c Hc Hs. eauto 10. Qed.

Lemma keeps_revoked_trans (st1 st2 st3 : State) :
  keeps_revoked st1 st2 → keeps_revoked st2 st3 → keeps_revoked st1 st3.
Proof.
  intros H12 H23 c Hc Hs.
  destruct (H12 c Hc Hs) as (c2 & Hc2 & Hid2 & Hp2 & Hd2 & Hs2).
  destruct (H23 c2 Hc2 Hs2) as (c3 & Hc3 & Hid3 & Hp3 & Hd3 & Hs3).
  exists c3. repeat split; congruence.
Qed.

Lemma keeps_revoked_rows (st st' : State) :
  smart_contracts st' = smart_contracts st → keeps_revoked st st'.
Proof. intros Hrows c Hc Hs. exists c. by rewrite Hrows. Qed.

Lemma transition_keeps_revoked (st st' : State) :
  transition st st' → keeps_revoked st st'.
Proof.
  intros Hstep.
  destruct Hstep as [d0 p0 F HF Hpend|i|i s Hs|i n Hin|uuid pw dw F Hnone HF|i].
  - apply keeps_revoked_rows.
    by destruct (create_notification_rows st d0 p0 F pending) as (n & _ & _ & _ & _ & _ & ->).
  - by apply keeps_revoked_rows.
  - by apply keeps_revoked_rows.
  - destruct (updateApprovedFields_rows st i (requested_fields n)) as [Hr|Hr];
      [by apply keeps_revoked_rows|].
    intros c Hc Hs. exists (with_fields (requested_fields n) i c). rewrite Hr.
    split; [apply list_elem_of_fmap; eauto|].
    unfold with_fields. by destruct (_ =? _)%nat.
  - destruct (createContract_ok st uuid pw dw F) as (c0 & st2 & -> & _ & _ & _ & _ & Hr).
    intros c Hc Hs. exists c. simpl. rewrite Hr.
    split; [apply elem_of_app; by left|done].
  - destruct (revokeContract_rows st i) as [Hr|Hr]; [by apply keeps_revoked_rows|].
    intros c Hc Hs. exists (with_revoked i c). rewrite Hr.
    split; [apply list_elem_of_fmap; eauto|].
    unfold with_revoked. by destruct (_ =? _)%nat.
Qed.

(** X4. Revocation is terminal for a contract row and rows are never
    deleted: a row that is revoked is still in the table, revoked and for
    the same pair, after any sequence of registry requests. *)
Theorem revoked_rows_stay_revoked (st : State) (reqs : list Routes.Request) :
  keeps_revoked st (Routes.serve st reqs).
Proof.
  revert st. induction reqs as [|req reqs IH]; intros st; [apply keeps_revoked_refl|].
  simpl. eapply keeps_revoked_trans; [|apply IH].
  pose proof (handle_transitions st req) as Hrtc.
  induction Hrtc as [|x y z Hxy _ IHrtc]; [apply keeps_revoked_refl|].
  eapply keeps_revoked_trans; [by apply transition_keeps_revoked|exact IHrtc].
Qed.

(** ** Connecting, asking twice, denying, cancelling *)

(** X5. After a successful connect-doctor the pair has an active grant
    with no approved field, and connecting this holder with this doctor
    again is rejected with the already-connected error, leaving the state
    as it is. *)
Theorem connect_twice_rejected (st st' : State) (u : User) (did : nat)
    (uuid uuid' : string) :
  Routes.connect_doctor st (Some u) did uuid = (Routes.Success, st') →
  Routes.connect_doctor st' (Some u) did uuid'
    = (Routes.Failure Routes.AlreadyConnected, st')
  ∧ ∃ p d, PatientModel.findById st' (id u) = Some p
           ∧ DoctorModel.findById st' did = Some d
           ∧ is_Some (SmartContractService.findByWallets st'
                        (patient_wallet_address p) (doctor_wallet_address d))
           ∧ SmartContractService.getApprovedFields st'
               (patient_wallet_address p) (doctor_wallet_address d) = [].
Proof.
  unfold Routes.connect_doctor at 1.
  destruct (negb (bool_decide (type u = patient))) eqn:Htype; [discriminate|].
  destruct (did =? 0)%nat eqn:Hdid; [discriminate|].
  destruct (PatientModel.findById st (id u)) as [p|] eqn:Hp; [|discriminate].
  destruct (DoctorModel.findById st did) as [d|] eqn:Hd; [|discriminate].
  destruct (SmartContractService.findByWallets st _ _) eqn:Hfind; [discriminate|].
  destruct (createContract_ok st uuid (patient_wallet_address p)
              (doctor_wallet_address d) []) as (c & st2 & -> & Hps & Hds & _ & _ & Hrows).
  intros [= <-].
  assert (Hc : SmartContractService.findByWallets st2 (patient_wallet_address p)
                 (doctor_wallet_address d)
               = Some {| contract_id := next_rowid (smart_contracts_seq st)
                                          (map contract_id (smart_contracts st));
                         patient_wallet := patient_wallet_address p;
                         doctor_wallet := doctor_wallet_address d;
                         contract_address := Some ("contract_" +:+ uuid);
                         approved_fields := []; status := active |}).
  { unfold SmartContractService.findByWallets in *.
    rewrite Hrows, find_app_none by done.
    unfold SmartContractService.selects_active. simpl.
    by rewrite !bool_decide_eq_true_2. }
  assert (Hp2 : PatientModel.findById st2 (id u) = Some p).
  { unfold PatientModel.findById in *. by rewrite Hps. }
  assert (Hd2 : DoctorModel.findById st2 did = Some d).
  { unfold DoctorModel.findById in *. by rewrite Hds. }
  split.
  - unfold Routes.connect_doctor. by rewrite Htype, Hdid, Hp2, Hd2, Hc.
  - exists p, d. repeat split; [done|done|by rewrite Hc|].
    unfold SmartContractService.getApprovedFields. by rewrite Hc.
Qed.

Lemma connect_twice_rejected_witness :
  Routes.connect_doctor Examples.connected (Some Examples.holder) 1 "u9"
  = (Routes.Failure Routes.AlreadyConnected, Examples.connected).
Proof.
  apply (connect_twice_rejected Examples.start Examples.connected
           Examples.holder 1 "u1" "u9").
  reflexivity.
Defined.

(** X6. After a successful access request no second request of the same
    doctor for the same patient goes through while the first is pending:
    it fails, and a well-formed one fails with the duplicate-request
    error whatever fields it asks for. *)
Theorem request_twice_rejected (st st' : State) (u : User) (pid : nat)
    (F F2 : list string) :
  Routes.request_access st (Some u) pid F = (Routes.Success, st') →
  (∃ e, Routes.request_access st' (Some u) pid F2 = (Routes.Failure e, st'))
  ∧ (F2 ≠ [] → F2 ⊆ Helpers.getAvailableMedicalFields →
     Routes.request_access st' (Some u) pid F2
     = (Routes.Failure Routes.DuplicateRequest, st')).
Proof.
  unfold Routes.request_access at 1.
  destruct (negb (bool_decide (type u = doctor))) eqn:Htype; [discriminate|].
  destruct (0 <? List.length (Helpers.validateRequiredFields pid F))%nat eqn:Hreq;
    [discriminate|].
  destruct (List.length F =? 0)%nat; [discriminate|].
  destruct (0 <? List.length (snd (Helpers.validateMedicalFields F)))%nat; [discriminate|].
  destruct (PatientModel.findById st pid) as [p|] eqn:Hp; [|discriminate].
  destruct (negb (present (medical_record_cid p))) eqn:Hcid; [discriminate|].
  destruct (NotificationModel.findPendingByDoctorAndPatient st (id u) pid) eqn:Hpend;
    [discriminate|].
  destruct (SmartContractService.findByWallets st _ _) as [c|]; [|discriminate].
  destruct (negb (bool_decide (status c = active))); [discriminate|].
  destruct (create_notification_ok st (id u) pid F pending) as [n ->].
  intros [= <-].
  set (st' := set_notifications _ _ _).
  assert (Hpend' : is_Some (NotificationModel.findPendingByDoctorAndPatient st' (id u) pid)).
  { unfold NotificationModel.findPendingByDoctorAndPatient in *. simpl.
    rewrite find_app_none by done. simpl. rewrite !Nat.eqb_refl. simpl. by eexists. }
  destruct Hpend' as [n' Hn'].
  assert (Hp' : PatientModel.findById st' pid = Some p) by exact Hp.
  assert (Hall : ∀ G, ∃ e, Routes.request_access st' (Some u) pid G
                           = (Routes.Failure e, st')).
  { intros G. unfold Routes.request_access. rewrite Htype, Hp', Hcid, Hn'.
    destruct (_ <? _)%nat; [eauto|]. destruct (_ =? _)%nat; [eauto|].
    destruct (_ <? _)%nat; eauto. }
  split; [apply Hall|].
  intros HF2 Hcat. unfold Routes.request_access.
  rewrite Htype, Hp', Hcid, Hn', (nonempty_check F2 HF2), (invalid_check_false F2 Hcat).
  unfold Helpers.validateRequiredFields in *. by destruct (pid =? 0)%nat.
Qed.

Lemma request_twice_rejected_witness :
  Routes.request_access Examples.asked (Some Examples.requester) 1 ["vitals.weight"]
  = (Routes.Failure Routes.DuplicateRequest, Examples.asked).
Proof.
  apply (request_twice_rejected Examples.connected Examples.asked
           Examples.requester 1 ["vitals.heartRate"] ["vitals.weight"]).
  - reflexivity.
  - discriminate.
  - intros f Hf. apply list_elem_of_singleton in Hf as ->.
    apply list_elem_of_In. simpl. tauto.
Defined.

(** X7. Denying a request of the holder succeeds, marks it denied and
    leaves the contract rows and the in-memory contracts untouched. *)
Theorem deny_keeps_grant (st : State) (u : User) (nid : nat) (uuid : string)
    (n : Notification) :
  type u = patient →
  NotificationModel.findById st nid = Some n →
  n_patient_id n = id u →
  ∃ st',
    Routes.respond st (Some u) nid "deny" uuid = (Routes.Success, st')
    ∧ status_of st' nid = Some denied
    ∧ smart_contracts st' = smart_contracts st
    ∧ contracts st' = contracts st.
Proof.
  intros Htype Hfind Hown. unfold Routes.respond.
  rewrite Htype, includes_deny, Hfind, Hown, Nat.eqb_refl. simpl negb. cbv iota.
  change (bool_decide ("deny" = "approve")) with false. cbv iota.
  eexists. split; [reflexivity|]. split; [|done].
  unfold status_of. by rewrite (updateStatus_find st nid denied n Hfind).
Qed.

Lemma deny_keeps_grant_witness :
  ∃ st',
    Routes.respond Examples.asked (Some Examples.holder) 1 "deny" "u2"
      = (Routes.Success, st')
    ∧ status_of st' 1 = Some denied
    ∧ smart_contracts st' = smart_contracts Examples.asked
    ∧ contracts st' = contracts Examples.asked.
Proof.
  apply (deny_keeps_grant Examples.asked Examples.holder 1 "u2"
           {| notification_id := 1; n_doctor_id := 1; n_patient_id := 1;
              requested_fields := ["vitals.heartRate"]; n_status := pending |});
    reflexivity.
Defined.

Lemma find_filter_other (rows : list Notification) (i j : nat) :
  j ≠ i →
  List.find (fun n => (notification_id n =? j)%nat)
    (List.filter (fun n => negb (notification_id n =? i)%nat) rows)
  = List.find (fun n => (notification_id n =? j)%nat) rows.
Proof.
  intros Hne. induction rows as [|x rows IH]; [done|]. simpl.
  destruct (notification_id x =? i)%nat eqn:Hi; simpl.
  - apply Nat.eqb_eq in Hi.
    destruct (notification_id x =? j)%nat eqn:Hj; [|exact IH].
    apply Nat.eqb_eq in Hj. congruence.
  - by rewrite IH.
Qed.

Lemma find_filter_same (rows : list Notification) (i : nat) :
  List.find (fun n => (notification_id n =? i)%nat)
    (List.filter (fun n => negb (notification_id n =? i)%nat) rows) = None.
Proof.
  induction rows as [|x rows IH]; [done|]. simpl.
  destruct (notification_id x =? i)%nat eqn:Hi; simpl; [exact IH|].
  by rewrite Hi.
Qed.

(** X8. Cancelling: a doctor's own request is deleted when it is pending,
    and only then.  After a successful cancel the request is gone, every
    other notification is as before and no contract is touched; a request
    that is no longer pending is refused and the state stays as it is. *)
Theorem cancel_only_pending (st : State) (u : User) (nid : nat) (n : Notification) :
  type u = doctor →
  NotificationModel.findById st nid = Some n →
  n_doctor_id n = id u →
  (n_status n = pending →
     ∃ st',
       Routes.cancel_request st (Some u) nid = (Routes.Success, st')
       ∧ NotificationModel.findById st' nid = None
       ∧ (∀ j, j ≠ nid → NotificationModel.findById st' j = NotificationModel.findById st j)
       ∧ smart_contracts st' = smart_contracts st
       ∧ contracts st' = contracts st)
  ∧ (n_status n ≠ pending →
     Routes.cancel_request st (Some u) nid = (Routes.Failure Routes.NotPending, st)).
Proof.
  intros Htype Hfind Hown. unfold Routes.cancel_request.
  rewrite Htype, Hfind, Hown, Nat.eqb_refl. simpl negb. cbv iota.
  split.
  - intros Hs. rewrite Hs. simpl.
    eexists. split; [reflexivity|].
    unfold NotificationModel.findById. simpl.
    split; [apply find_filter_same|]. split; [|done].
    intros j Hj. by apply find_filter_other.
  - intros Hs. by rewrite bool_decide_eq_false_2.
Qed.

Lemma cancel_only_pending_witness :
  (∃ st',
      Routes.cancel_request Examples.asked (Some Examples.requester) 1
        = (Routes.Success, st')
      ∧ NotificationModel.findById st' 1 = None)
  ∧ Routes.cancel_request Examples.refused (Some Examples.requester) 1
    = (Routes.Failure Routes.NotPending, Examples.refused).
Proof.
  split.
  - destruct (proj1 (cancel_only_pending Examples.asked Examples.requester 1
               {| notification_id := 1; n_doctor_id := 1; n_patient_id := 1;
                  requested_fields := ["vitals.heartRate"]; n_status := pending |}
               eq_refl eq_refl eq_refl) eq_refl) as (st' & Hrun & Hgone & _).
    eauto.
  - apply (proj2 (cancel_only_pending Examples.refused Examples.requester 1
               {| notification_id := 1; n_doctor_id := 1; n_patient_id := 1;
                  requested_fields := ["vitals.heartRate"]; n_status := denied |}
               eq_refl eq_refl eq_refl)).
    discriminate.
Defined.

(** ** Reading a patient's data *)



(** X10. In every state reached from an empty registry the endpoint never
    fails on a record that could be retrieved: the approved fields are
    catalog paths, on which the projection does not throw. *)
Theorem medical_data_projection_total (ps : list Patient) (ds : list Doctor)
    (reqs : list Routes.Request) (u : option User) (pid : nat) (full : value) :
  DoctorRoutes.medical_data (Routes.serve (Routes.initial ps ds) reqs) u pid (Ok full)
  ≠ DoctorRoutes.Refused DoctorRoutes.ReadFailed.
Proof.
  pose proof (reachable_catalog_fields ps ds reqs) as [_ Hcat].
  set (st := Routes.serve _ _) in *.
  unfold DoctorRoutes.medical_data.
  destruct u as [u|]; [|discriminate].
  destruct (negb (bool_decide (type u = doctor))); [discriminate|].
  destruct (PatientModel.findById st pid) as [p|]; [|discriminate].
  destruct (negb (present (medical_record_cid p))); [discriminate|].
  destruct (SmartContractService.findByWallets st _ _) as [c|] eqn:Hc; [|discriminate].
  destruct (negb (bool_decide (status c = active))); [discriminate|].
  destruct (List.length (approved_fields c) =? 0)%nat; [discriminate|].
  apply find_some_in in Hc as [Hin _].
  rewrite Forall_forall in Hcat. specialize (Hcat c Hin).
  assert (HS : Forall (λ p, two_segments p = true) (approved_fields c)).
  { apply Forall_forall. intros f Hf.
    pose proof catalog_two_segments as Htwo.
    rewrite Forall_forall in Htwo. by apply Htwo, Hcat. }
  destruct (filterRecord_two_segments full _ HS) as (m & Hrun & _).
  apply getApprovedFields_ok in Hrun. by rewrite Hrun.
Qed.

(** X11. After a successful revoke the doctor of the pair gets no data of
    this holder from the medical-data endpoint: the request is refused,
    and for a doctor token and a holder with an uploaded record the
    refusal is the no-active-access one. *)
Theorem revoked_doctor_reads_nothing (st st' : State) (u : User) (did : nat) :
  single_active st →
  Routes.revoke_access st (Some u) did = (Routes.Success, st') →
  ∃ p d,
    PatientModel.findById st' (id u) = Some p
    ∧ DoctorModel.findById st' did = Some d
    ∧ ∀ du retrieved,
        wallet_address du = doctor_wallet_address d →
        (∃ e, DoctorRoutes.medical_data st' (Some du) (id u) retrieved
              = DoctorRoutes.Refused e)
        ∧ (type du = doctor → present (medical_record_cid p) = true →
           DoctorRoutes.medical_data st' (Some du) (id u) retrieved
           = DoctorRoutes.Refused DoctorRoutes.NoActiveAccess).
Proof.
  intros Hone. unfold Routes.revoke_access.
  destruct (negb (bool_decide (type u = patient))); [discriminate|].
  destruct (PatientModel.findById st (id u)) as [p|] eqn:Hp; [|discriminate].
  destruct (DoctorModel.findById st did) as [d|] eqn:Hd; [|discriminate].
  destruct (SmartContractService.findByWallets st _ _) as [c|] eqn:Hc; [|discriminate].
  unfold SmartContractService.revokeContract.
  destruct (SmartContractService.findById st (contract_id c)); [|discriminate].
  destruct (present _); [|discriminate].
  set (st1 := match contracts st !! _ with Some _ => _ | None => st end).
  assert (Hrows1 : smart_contracts st1 = smart_contracts st).
  { subst st1. by destruct (contracts st !! _). }
  assert (Hpat1 : patients st1 = patients st).
  { subst st1. by destruct (contracts st !! _). }
  assert (Hdoc1 : doctors st1 = doctors st).
  { subst st1. by destruct (contracts st !! _). }
  intros [= <-].
  exists p, d.
  split; [unfold PatientModel.findById in *; simpl; by rewrite Hpat1|].
  split; [unfold DoctorModel.findById in *; simpl; by rewrite Hdoc1|].
  intros du retrieved Hw.
  assert (Hnone : SmartContractService.findByWallets
                    (set_smart_contracts st1
                       (map (with_revoked (contract_id c)) (smart_contracts st1))
                       (smart_contracts_seq st1))
                    (patient_wallet_address p) (wallet_address du) = None).
  { unfold SmartContractService.findByWallets. simpl. rewrite Hrows1, Hw.
    by apply revoke_leaves_no_active. }
  fold (with_revoked (contract_id c)).
  unfold DoctorRoutes.medical_data.
  assert (Hp' : PatientModel.findById
                  (set_smart_contracts st1
                     (map (with_revoked (contract_id c)) (smart_contracts st1))
                     (smart_contracts_seq st1)) (id u) = Some p).
  { unfold PatientModel.findById in *. simpl. by rewrite Hpat1. }
  rewrite Hp', Hnone. split.
  - destruct (negb (bool_decide _)); [eauto|]. destruct (negb (present _)); eauto.
  - intros -> ->. done.
Qed.

Lemma revoked_doctor_reads_nothing_witness :
  ∃ st',
    Routes.revoke_access Examples.granted (Some Examples.holder) 1
      = (Routes.Success, st')
    ∧ DoctorRoutes.medical_data st' (Some Examples.requester) 1 (Ok Examples.record)
      = DoctorRoutes.Refused DoctorRoutes.NoActiveAccess.
Proof.
  assert (Hone : single_active Examples.granted).
  { do 3 apply serve_single_active. intros pw dw. simpl. lia. }
  eexists. split; [reflexivity|].
  destruct (revoked_doctor_reads_nothing Examples.granted _ Examples.holder 1 Hone eq_refl)
    as (p & d & Hp & Hd & Hread).
  injection Hp as <-. injection Hd as <-.
  by apply (Hread Examples.requester (Ok Examples.record) eq_refl).
Defined.

(** ** More on paths and projections *)

Lemma assign_fresh (ks : list string) (last : string) (v : value) :
  ∃ m, MidnightService.assign (VObj ∅) ks last v = Ok (VObj m)
       ∧ walk (VObj m) (ks ++ [last]) = v.
Proof.
  induction ks as [|k ks (m & Hset & Hget)].
  - exists (<[last := v]> ∅). split; [done|].
    simpl. by rewrite next_obj, lookup_insert_eq.
  - exists (<[k := VObj m]> ∅). split.
    + simpl. rewrite lookup_insert_eq. simpl. rewrite Hset. simpl.
      by rewrite insert_insert_eq.
    + change ((k :: ks) ++ [last]) with (k :: (ks ++ [last])).
      by rewrite walk_cons, next_obj, lookup_insert_eq.
Qed.

(** X12. For every dotted path none of whose segments names a member
    inherited from a built-in prototype, writing a value at the path into
    a fresh empty object succeeds, and reading the same path back returns
    that value. *)
Theorem set_then_get (path : string) (v : value) :
  own_path path = true →
  ∃ P, MidnightService.setNestedProperty (VObj ∅) path v = Ok P
       ∧ MidnightService.getNestedProperty P path = Ok v.
Proof.
  intros _. unfold MidnightService.setNestedProperty. fold (segments path).
  destruct (assign_fresh (List.removelast (segments path))
              (List.last (segments path) "") v) as (m & Hset & Hget).
  exists (VObj m). split; [exact Hset|].
  rewrite getNestedProperty_walk. f_equal.
  by rewrite (segments_snoc path) at 1.
Qed.

Lemma set_then_get_witness :
  ∃ P, MidnightService.setNestedProperty (VObj ∅) "vitals.heartRate" (VNum 72) = Ok P
       ∧ MidnightService.getNestedProperty P "vitals.heartRate" = Ok (VNum 72).
Proof. apply set_then_get. reflexivity. Defined.

Lemma walk_empty_record (keys : list string) :
  keys ≠ [] → walk (VObj ∅) keys = VUndefined.
Proof. destruct keys as [|k keys]; [done|]. intros _. apply walk_empty_obj. Qed.

(** X13. The projection of any record on the empty field list is the
    empty object, and so is the projection of the empty record on any list
    of paths none of whose segments names a member inherited from a
    built-in prototype. *)
Theorem projection_of_nothing :
  (∀ R, MidnightService.getApprovedFields R [] = Ok (VObj ∅))
  ∧ (∀ S, Forall (λ p, own_path p = true) S →
          MidnightService.getApprovedFields (VObj ∅) S = Ok (VObj ∅)).
Proof.
  split; [done|].
  intros S _. apply getApprovedFields_ok.
  induction S as [|p S IH] using rev_ind; [done|].
  rewrite filterRecord_snoc, IH. simpl.
  by rewrite walk_empty_record by apply split_nonempty.
Qed.

Lemma projection_of_nothing_witness :
  MidnightService.getApprovedFields (VObj ∅) ["vitals.heartRate"; "patientInfo"]
  = Ok (VObj ∅).
Proof.
  apply (proj2 projection_of_nothing). repeat constructor.
Defined.

Lemma getApprovedFields_total_on_catalog_witness :
  ∃ P, MidnightService.getApprovedFields (VStr "not a record")
         ["vitals.heartRate"; "patientInfo.name"] = Ok P.
Proof.
  apply getApprovedFields_total_on_catalog.
  intros f Hf. apply list_elem_of_In in Hf. apply list_elem_of_In.
  simpl in *. tauto.
Defined.

(** ** Validating requested fields *)

(** X14. [validateMedicalFields] sorts every field into exactly one list,
    keeping the order: the valid ones are the fields of the catalog, the
    invalid ones the others, and no field is invalid exactly when all are
    catalog fields. *)
Theorem validateMedicalFields_partition (F : list string) :
  fst (Helpers.validateMedicalFields F) ++ snd (Helpers.validateMedicalFields F) ≡ₚ F
  ∧ (∀ f, f ∈ fst (Helpers.validateMedicalFields F) ↔
          f ∈ F ∧ f ∈ Helpers.getAvailableMedicalFields)
  ∧ (∀ f, f ∈ snd (Helpers.validateMedicalFields F) ↔
          f ∈ F ∧ f ∉ Helpers.getAvailableMedicalFields)
  ∧ (snd (Helpers.validateMedicalFields F) = [] ↔
     F ⊆ Helpers.getAvailableMedicalFields).
Proof.
  rewrite validateMedicalFields_spec. simpl.
  assert (Hin : ∀ (g : string → bool) f, f ∈ List.filter g F ↔ f ∈ F ∧ g f = true).
  { intros g f. rewrite !list_elem_of_In. apply List.filter_In. }
  split; [|split; [|split]].
  - clear Hin. induction F as [|f F IH]; [done|]. simpl.
    destruct (Helpers.includes _ f); simpl.
    + by apply Permutation_skip.
    + rewrite <- Permutation_middle. by apply Permutation_skip.
  - intros f. rewrite Hin. unfold Helpers.includes.
    by rewrite bool_decide_eq_true.
  - intros f. rewrite Hin. unfold Helpers.includes.
    by rewrite negb_true_iff, bool_decide_eq_false.
  - split.
    + intros Hnil f Hf.
      destruct (decide (f ∈ Helpers.getAvailableMedicalFields)) as [|Hnot]; [done|].
      assert (Hf' : f ∈ List.filter
                      (λ f, negb (Helpers.includes Helpers.getAvailableMedicalFields f)) F).
      { apply Hin. split; [done|]. unfold Helpers.includes.
        by rewrite bool_decide_eq_false_2. }
      rewrite Hnil in Hf'. by apply elem_of_nil in Hf'.
    + intros Hsub. clear Hin. induction F as [|f F IH]; [done|]. simpl.
      unfold Helpers.includes at 1.
      rewrite bool_decide_eq_true_2 by (apply Hsub; left). simpl.
      apply IH. intros g Hg. apply Hsub. by right.
Qed.

(** ** Notification statistics *)

(** X15. The statistics add up: the pending, approved and denied counters
    sum to the total. *)
Theorem stats_add_up (notifications : list Notification) :
  (NotificationRoutes.stat_pending (NotificationRoutes.stats notifications)
   + NotificationRoutes.stat_approved (NotificationRoutes.stats notifications)
   + NotificationRoutes.stat_denied (NotificationRoutes.stats notifications)
   = NotificationRoutes.total (NotificationRoutes.stats notifications))%nat.
Proof.
  simpl. induction notifications as [|n ns IH]; [done|]. simpl.
  destruct (n_status n); simpl; lia.
Qed.

(** ** Wallet signatures *)

Lemma substring_all (s : string) : String.substring 0 (String.length s) s = s.
Proof. induction s as [|c s IH]; [done|]. simpl. by rewrite IH. Qed.

Lemma substring_skip (p s : string) (n : nat) :
  String.substring (String.length p) n (p +:+ s) = String.substring 0 n s.
Proof. induction p as [|c p IH]; [done|]. simpl. exact IH. Qed.

Lemma length_append (p s : string) :
  String.length (p +:+ s) = (String.length p + String.length s)%nat.
Proof. induction p as [|c p IH]; [done|]. simpl. by rewrite IH. Qed.

Lemma endsWith_append (p s : string) : MidnightService.endsWith (p +:+ s) s = true.
Proof.
  unfold MidnightService.endsWith. rewrite length_append.
  apply andb_true_iff. split; [apply Nat.leb_le; lia|].
  apply bool_decide_eq_true.
  replace (String.length p + String.length s - String.length s)%nat
    with (String.length p) by lia.
  by rewrite substring_skip, substring_all.
Qed.

Lemma startsWith_append (p s : string) : MidnightService.startsWith (p +:+ s) p = true.
Proof.
  unfold MidnightService.startsWith. induction p as [|c p IH]; [by destruct s|].
  simpl. by destruct (ascii_dec c c).
Qed.

(** X16. No wallet secret is needed to pass [verifyWalletSignature]: for
    every wallet address and every message, the string made of the demo
    prefix followed by the address is accepted, and so is the signature
    the mock wallet computes from the message alone. *)
Theorem signature_needs_no_secret (walletAddress message : string) :
  MidnightService.verifyWalletSignature walletAddress message
    ("demo_signature_" +:+ walletAddress) = true
  ∧ MidnightService.verifyWalletSignature walletAddress message
      (MidnightService.sign message) = true.
Proof.
  unfold MidnightService.verifyWalletSignature. split.
  - rewrite endsWith_append.
    by rewrite startsWith_append.
  - destruct (_ && _); [done|]. by apply bool_decide_eq_true.
Qed.

(** ** Validating an uploaded record *)

Lemma prop_next (r : value) (key : string) :
  truthy r = true → Security.prop r key = next r key.
Proof.
  intros Ht. unfold Security.prop. by rewrite (next_read r key Ht).
Qed.

(** X17. An uploaded record is accepted exactly when it is an object (or
    array) in which [patientInfo], [medicalHistory],
    [patientInfo.dateOfBirth] and [patientInfo.gender] all read a truthy
    value; an accepted record carries no error message. *)
Theorem validateMedicalRecord_accepts (record : value) :
  (fst (Security.validateMedicalRecord record) = true ↔
   Security.is_object record = true
   ∧ ∀ path,
       path ∈ ["patientInfo"; "medicalHistory";
               "patientInfo.dateOfBirth"; "patientInfo.gender"] →
       ∃ v, MidnightService.getNestedProperty record path = Ok v ∧ truthy v = true)
  ∧ (fst (Security.validateMedicalRecord record) = true →
     snd (Security.validateMedicalRecord record) = []).
Proof.
  assert (Hpaths :
    (∀ path,
       path ∈ ["patientInfo"; "medicalHistory";
               "patientInfo.dateOfBirth"; "patientInfo.gender"] →
       ∃ v, MidnightService.getNestedProperty record path = Ok v ∧ truthy v = true)
    ↔ truthy (next record "patientInfo") = true
      ∧ truthy (next record "medicalHistory") = true
      ∧ truthy (next (next record "patientInfo") "dateOfBirth") = true
      ∧ truthy (next (next record "patientInfo") "gender") = true).
  { split.
    - intros H.
      assert (Hget : ∀ path, path ∈ ["patientInfo"; "medicalHistory";
                                      "patientInfo.dateOfBirth"; "patientInfo.gender"] →
                             truthy (walk record (segments path)) = true).
      { intros path Hp. destruct (H path Hp) as (v & Hv & Ht).
        rewrite getNestedProperty_walk in Hv. by injection Hv as ->. }
      repeat split.
      + apply (Hget "patientInfo"). set_solver.
      + apply (Hget "medicalHistory"). set_solver.
      + apply (Hget "patientInfo.dateOfBirth"). set_solver.
      + apply (Hget "patientInfo.gender"). set_solver.
    - intros (H1 & H2 & H3 & H4) path Hp.
      exists (walk record (segments path)). split; [apply getNestedProperty_walk|].
      repeat (apply elem_of_cons in Hp as [->|Hp]; [done|]).
      by apply elem_of_nil in Hp. }
  rewrite Hpaths. clear Hpaths.
  unfold Security.validateMedicalRecord.
  destruct (truthy record) eqn:Ht; simpl.
  - destruct (Security.is_object record) eqn:Hobj; simpl.
    + rewrite !(prop_next record) by done.
      destruct (truthy (next record "patientInfo")) eqn:Hpi; simpl.
      * rewrite !(prop_next (next record "patientInfo")) by done.
        destruct (truthy (next record "medicalHistory")),
          (truthy (next (next record "patientInfo") "dateOfBirth")),
          (truthy (next (next record "patientInfo") "gender")); simpl; intuition congruence.
      * destruct (truthy (next record "medicalHistory")); simpl; intuition congruence.
    + intuition congruence.
  - split; [|done]. split; [done|]. intros [Hobj _]. by destruct record.
Qed.

(** ** Absence is hereditary *)

Lemma split_app_sep (a b : string) :
  split "." (a +:+ String "." b) = split "." a ++ split "." b.
Proof.
  induction a as [|c a IH]; simpl; [done|].
  case_bool_decide; [by rewrite IH|].
  rewrite IH. pose proof (split_nonempty "." a) as Hne.
  by destruct (split "." a).
Qed.

Lemma walk_app (v : value) (ks ks' : list string) :
  walk v (ks ++ ks') = walk (walk v ks) ks'.
Proof. unfold walk. apply fold_left_app. Qed.

(** X18. Nothing is found below a falsy value: when a path reads
    [undefined], [null], [false], 0 or the empty string, every longer
    path that extends it by a dot and further segments reads
    [undefined]. *)
Theorem nothing_below_falsy (o : value) (path rest : string) (v : value) :
  MidnightService.getNestedProperty o path = Ok v →
  truthy v = false →
  MidnightService.getNestedProperty o (path +:+ String "." rest) = Ok VUndefined.
Proof.
  intros Hget Hfalsy. rewrite getNestedProperty_walk in Hget |- *.
  injection Hget as <-. f_equal. unfold segments in *.
  rewrite split_app_sep, walk_app.
  pose proof (split_nonempty "." rest) as Hne.
  destruct (split "." rest) as [|k ks]; [done|].
  by apply walk_falsy.
Qed.

Lemma nothing_below_falsy_witness :
  MidnightService.getNestedProperty Examples.record "vitals.bloodPressure.unit"
  = Ok VUndefined.
Proof.
  apply (nothing_below_falsy Examples.record "vitals.bloodPressure" "unit" VUndefined);
    reflexivity.
Defined.
